(** * Nebula Heart: the particle simulation of [main.js]

    A shallow embedding of the simulation core of [main.js]
    ([getHeartPoint], [createParticleSystem], [explode], [animateSystem])
    and the properties of its specification.

    Numbers.  A JavaScript number is modelled as a real number: arithmetic
    is exact, there is no NaN, no infinity and no signed zero, and a store
    into a [Float32Array] keeps the value as it is.  [Math.sin], [Math.cos]
    and [Math.sqrt] are the real functions [sin], [cos] and [sqrt].

    Buffers.  A [Float32Array] is a list of reals of fixed length, read with
    [get] and written with [set]; the four attribute buffers of a geometry
    are flat, three consecutive entries per particle, as in the source.

    Randomness.  [Math.random] is a source of draws that is threaded through
    the code: a stream of reals and the index of the next draw to hand out.
    The draws that the constructors of the rendering library take for the
    identifiers of their objects are not part of the model.

    Rounding.  Two statements hinge on what the real numbers leave out, the
    rounding of a product to a double and of a stored value to a single.
    The two lines of the code they are about, the damping of a velocity
    entry and the force of an impulse, are embedded a second time over
    IEEE 754 numbers, in [Single]. *)

From Stdlib Require Import Reals List Arith NArith ZArith Lia Lra Psatz Bool.
From Stdlib Require Import SpecFloat.
Import ListNotations.

Local Open Scope R_scope.

(** ** Comparisons of numbers, as booleans *)

Definition ltb (x y : R) : bool := if Rlt_dec x y then true else false.
Definition gtb (x y : R) : bool := if Rgt_dec x y then true else false.

(** ** Typed arrays *)

Module F32.

(** [a[i]]; the code never reads past the end of a buffer of a system, and
    the model reads 0 there. *)
Definition get (a : list R) (i : nat) : R := nth i a 0.

(** [a[i] = v]; a typed array has a fixed length, a write past its end is
    dropped. *)
Fixpoint set (a : list R) (i : nat) (v : R) : list R :=
  match a, i with
  | [], _ => []
  | _ :: tl, O => v :: tl
  | hd :: tl, S j => hd :: set tl j v
  end.

(** [new Float32Array(n)]: [n] zeros. *)
Definition alloc (n : nat) : list R := repeat 0 n.

End F32.

(** ** Vectors: the three entries of one particle in a flat buffer *)

Definition Vec3 : Type := (R * R * R)%type.

Definition vx (v : Vec3) : R := fst (fst v).
Definition vy (v : Vec3) : R := snd (fst v).
Definition vz (v : Vec3) : R := snd v.

Definition vadd (a b : Vec3) : Vec3 := (vx a + vx b, vy a + vy b, vz a + vz b).
Definition vsub (a b : Vec3) : Vec3 := (vx a - vx b, vy a - vy b, vz a - vz b).
Definition vscale (k : R) (a : Vec3) : Vec3 := (k * vx a, k * vy a, k * vz a).
Definition dot (a b : Vec3) : R := vx a * vx b + vy a * vy b + vz a * vz b.
Definition magnitude (a : Vec3) : R := sqrt (dot a a).

(** The entries [3i], [3i+1], [3i+2] of a flat buffer. *)
Definition particle (buf : list R) (i : nat) : Vec3 :=
  (F32.get buf (i * 3), F32.get buf (i * 3 + 1), F32.get buf (i * 3 + 2)).

(** ** Configuration *)

(** [THREE.Color]: three channels. *)
Record Color : Type := mkColor { cr : R; cg : R; cb : R }.

Record Colors : Type := mkColors {
  inner : Color;
  core : Color;
  outer : Color;
  aura : Color
}.

Record Config : Type := mkConfig {
  particleCount : N;
  auraCount : N;
  explosionForce : R;
  formationSpeed : R;
  colors : Colors
}.

(** [new THREE.Color(0xRRGGBB)], each channel as its byte over 255.  The
    statements below hold for every configuration; the channels of the
    configured colours matter only where a statement is about [CONFIG]. *)
Definition hex (r g b : Z) : Color := mkColor (IZR r / 255) (IZR g / 255) (IZR b / 255).

Definition CONFIG : Config := {|
  particleCount := 50000%N;
  auraCount := 8000%N;
  explosionForce := 3.5;
  formationSpeed := 0.025;
  colors := {|
    inner := hex 0 234 255;
    core := hex 255 0 85;
    outer := hex 255 170 0;
    aura := hex 170 0 255
  |}
|}.

(** ** Math: heart shape *)

(** [Math.pow(b, n)] for a whole exponent. *)
Definition Math_pow (b : R) (n : nat) : R := b ^ n.

Record Point : Type := mkPoint { px : R; py : R }.

Definition getHeartPoint (t : R) : Point :=
  let x := 16 * Math_pow (sin t) 3 in
  let y := 13 * cos t - 5 * cos (2 * t) - 2 * cos (3 * t) - cos (4 * t) in
  {| px := x; py := y |}.

(** ** The system *)

(** The attributes of a [THREE.BufferGeometry]: four flat buffers, and the
    [needsUpdate] flag of the position attribute. *)
Record Geometry : Type := mkGeometry {
  position : list R;
  target : list R;
  color : list R;
  velocity : list R;
  position_needsUpdate : bool
}.

Record Material : Type := mkMaterial { size : R; opacity : R }.

(** What [createParticleSystem] returns; [rotation_y] is
    [mesh.rotation.y]. *)
Record System : Type := mkSystem {
  geometry : Geometry;
  material : Material;
  rotation_y : R
}.

(** ** Randomness *)

(** The state of [Math.random]: the stream of its draws and the index of
    the next one. *)
Record Rng : Type := mkRng { draws : nat -> R; next : nat }.

(** [Math.random] promises a draw in [0, 1). *)
Definition unit_draws (d : nat -> R) : Prop := forall k, 0 <= d k < 1.

(** A computation that may call [Math.random]. *)
Definition Rand (A : Type) : Type := Rng -> A * Rng.

Definition ret {A : Type} (a : A) : Rand A := fun g => (a, g).

Definition bind {A B : Type} (m : Rand A) (k : A -> Rand B) : Rand B :=
  fun g => let (a, g') := m g in k a g'.

Notation "x <- m ;; k" := (bind m (fun x => k))
  (at level 61, m at next level, right associativity).

(** [Math.random()] *)
Definition random : Rand R :=
  fun g => (draws g (next g), {| draws := draws g; next := S (next g) |}).

(** [for (let i = 0; i < n; i++) body(i)] on a loop state [S]. *)
Fixpoint for_loop {S : Type} (body : nat -> S -> Rand S) (i n : nat) (s : S) : Rand S :=
  match n with
  | O => ret s
  | Datatypes.S n' => s' <- body i s ;; for_loop body (Datatypes.S i) n' s'
  end.

(** ** [THREE.Color]

    The methods of the rendering library that the initializer calls, as the
    library documents them: [lerp] moves each channel by the fraction
    [alpha] toward the other colour, [multiplyScalar] scales each channel,
    and the colour named white has every channel at 1. *)

Definition lerp (c d : Color) (alpha : R) : Color :=
  {| cr := cr c + (cr d - cr c) * alpha;
     cg := cg c + (cg d - cg c) * alpha;
     cb := cb c + (cb d - cb c) * alpha |}.

Definition multiplyScalar (c : Color) (s : R) : Color :=
  {| cr := cr c * s; cg := cg c * s; cb := cb c * s |}.

Definition white : Color := {| cr := 1; cg := 1; cb := 1 |}.

(** ** System builder *)

(** 3. Color Logic (Gradient Mapping) of [createParticleSystem]. *)
Definition colorLogic (cfg : Config) (isAura : bool) (tx ty : R) : Rand Color :=
  if isAura then
    r <- random ;;
    ret (lerp (aura (colors cfg)) (inner (colors cfg)) (r * 0.5))
  else
    let dist := sqrt (tx * tx + ty * ty) in
    if ltb (Rabs tx) 2 && gtb ty 0 then
      ret (lerp (inner (colors cfg)) white 0.3)
    else if gtb dist 14 then
      r <- random ;;
      ret (lerp (core (colors cfg)) (outer (colors cfg)) r)
    else
      r <- random ;;
      ret (multiplyScalar (core (colors cfg)) (0.8 + r * 0.4)).

(** The four buffers while they are filled. *)
Record Buffers : Type := mkBuffers {
  posArray : list R;
  targetArray : list R;
  colArray : list R;
  velArray : list R
}.

(** The point on the curve and the scattered target of one particle
    (steps 1 and 2 of the loop body). *)
Definition scatter (isAura : bool) : Rand (Point * Vec3) :=
  r <- random ;;
  let t := r * PI * 2 in
  let p := getHeartPoint t in
  rScale <- random ;;
  scale <- (if isAura then r <- random ;; ret (1.0 + r * 0.4)
            else ret (0.8 + Math_pow rScale 3 * 0.2)) ;;
  let spread := if isAura then 4.0 else 1.5 in
  rx <- random ;;
  let noiseX := (rx - 0.5) * spread in
  ry <- random ;;
  let noiseY := (ry - 0.5) * spread in
  rz <- random ;;
  let noiseZ := (rz - 0.5) * (if isAura then 12 else 5) in
  let tx := px p * scale + noiseX in
  let ty := py p * scale + noiseY in
  let tz := noiseZ in
  ret (p, (tx, ty, tz)).

(** The body of the loop of [createParticleSystem]. *)
Definition createBody (cfg : Config) (isAura : bool) (i : nat) (b : Buffers) : Rand Buffers :=
  let i3 := (i * 3)%nat in
  pt <- scatter isAura ;;
  let '(tx, ty, tz) := snd pt in
  c <- colorLogic cfg isAura tx ty ;;
  (* Save Target *)
  let targetArray := F32.set (targetArray b) i3 tx in
  let targetArray := F32.set targetArray (i3 + 1) ty in
  let targetArray := F32.set targetArray (i3 + 2) tz in
  (* Start Position (Randomly scattered in space) *)
  r0 <- random ;;
  let posArray := F32.set (posArray b) i3 ((r0 - 0.5) * 300) in
  r1 <- random ;;
  let posArray := F32.set posArray (i3 + 1) ((r1 - 0.5) * 300) in
  r2 <- random ;;
  let posArray := F32.set posArray (i3 + 2) ((r2 - 0.5) * 300) in
  (* Colors *)
  let colArray := F32.set (colArray b) i3 (cr c) in
  let colArray := F32.set colArray (i3 + 1) (cg c) in
  let colArray := F32.set colArray (i3 + 2) (cb c) in
  (* Velocity (initially zero) *)
  let velArray := F32.set (velArray b) i3 0 in
  let velArray := F32.set velArray (i3 + 1) 0 in
  let velArray := F32.set velArray (i3 + 2) 0 in
  ret {| posArray := posArray; targetArray := targetArray;
         colArray := colArray; velArray := velArray |}.

(** [createParticleSystem]: the four buffers, filled by the loop, with the
    material and the angle of the mesh.  The objects of the rendering
    library that hold them, and what their constructors do, are outside
    the model. *)
Definition createParticleSystem (cfg : Config) (count : nat) (size opacity : R)
    (isAura : bool) : Rand System :=
  let b := {| posArray := F32.alloc (count * 3);
              targetArray := F32.alloc (count * 3);
              colArray := F32.alloc (count * 3);
              velArray := F32.alloc (count * 3) |} in
  b <- for_loop (createBody cfg isAura) 0 count b ;;
  ret {| geometry := {| position := posArray b;
                        target := targetArray b;
                        color := colArray b;
                        velocity := velArray b;
                        position_needsUpdate := false |};
         material := {| size := size; opacity := opacity |};
         rotation_y := 0 |}.

(** The bound of [for (let i = 0; i < a.length/3; i++)]: the division is the
    real one, so the loop runs for every [i] with [3*i < a.length]. *)
Definition loop_bound (len : nat) : nat := ((len + 2) / 3)%nat.

(** ** Interaction *)

(** [Math.sqrt(x*x + y*y + z*z) || 1]: the right operand is taken when the
    left one is zero. *)
Definition explode_len (x y z : R) : R :=
  let len := sqrt (x * x + y * y + z * z) in
  if Req_dec_T len 0 then 1 else len.

(** The body of the loop of [explode], on the velocity buffer. *)
Definition explodeBody (cfg : Config) (pos : list R) (i : nat) (vel : list R) : Rand (list R) :=
  let i3 := (i * 3)%nat in
  (* Vector from center *)
  let x := F32.get pos i3 in
  let y := F32.get pos (i3 + 1) in
  let z := F32.get pos (i3 + 2) in
  (* Normalize direction *)
  let len := explode_len x y z in
  (* Add outward velocity *)
  r <- random ;;
  let force := r * explosionForce cfg + 1.0 in
  let vel := F32.set vel i3 (F32.get vel i3 + (x / len) * force) in
  let vel := F32.set vel (i3 + 1) (F32.get vel (i3 + 1) + (y / len) * force) in
  let vel := F32.set vel (i3 + 2) (F32.get vel (i3 + 2) + (z / len) * force) in
  ret vel.

Definition explode (cfg : Config) (geo : Geometry) : Rand Geometry :=
  let pos := position geo in
  let vel := velocity geo in
  vel <- for_loop (explodeBody cfg pos) 0 (loop_bound (length pos)) vel ;;
  ret {| position := position geo;
         target := target geo;
         color := color geo;
         velocity := vel;
         position_needsUpdate := position_needsUpdate geo |}.

(** ** Animation loop *)

(** One pass of the body of the loop of [animateSystem], on the position and
    the velocity buffer. *)
Definition animateBody (cfg : Config) (time : R) (targets : list R)
    (st : list R * list R) (i : nat) : list R * list R :=
  let '(positions, velocities) := st in
  let i3 := (i * 3)%nat in
  (* 1. Physics (Velocity) *)
  let positions := F32.set positions i3 (F32.get positions i3 + F32.get velocities i3) in
  let positions := F32.set positions (i3 + 1) (F32.get positions (i3 + 1) + F32.get velocities (i3 + 1)) in
  let positions := F32.set positions (i3 + 2) (F32.get positions (i3 + 2) + F32.get velocities (i3 + 2)) in
  (* Friction/Damping *)
  let velocities := F32.set velocities i3 (F32.get velocities i3 * 0.94) in
  let velocities := F32.set velocities (i3 + 1) (F32.get velocities (i3 + 1) * 0.94) in
  let velocities := F32.set velocities (i3 + 2) (F32.get velocities (i3 + 2) * 0.94) in
  (* 2. Homing (Return to Heart Shape) *)
  let tx := F32.get targets i3 in
  let ty := F32.get targets (i3 + 1) in
  let tz := F32.get targets (i3 + 2) in
  let breath := sin (time * 1.5 + tx * 0.1) * 0.5 in
  if ltb (Rabs (F32.get velocities i3)) 0.1 then
    let positions := F32.set positions i3
      (F32.get positions i3 + (tx - F32.get positions i3) * formationSpeed cfg) in
    let positions := F32.set positions (i3 + 1)
      (F32.get positions (i3 + 1) + (ty - F32.get positions (i3 + 1)) * formationSpeed cfg) in
    let positions := F32.set positions (i3 + 2)
      (F32.get positions (i3 + 2) + ((tz + breath) - F32.get positions (i3 + 2)) * formationSpeed cfg) in
    (positions, velocities)
  else (positions, velocities).

Definition animateSystem (cfg : Config) (system : System) (time : R) : System :=
  let positions := position (geometry system) in
  let targets := target (geometry system) in
  let velocities := velocity (geometry system) in
  let '(positions, velocities) :=
    fold_left (animateBody cfg time targets)
              (seq 0 (loop_bound (length positions)))
              (positions, velocities) in
  {| geometry := {| position := positions;
                    target := target (geometry system);
                    color := color (geometry system);
                    velocity := velocities;
                    position_needsUpdate := true |};
     material := material system;
     rotation_y := sin (time * 0.2) * 0.15 |}.

(** ** The specification's view of one particle *)

(** A blend of [p] toward [t] by the fraction [f], on each axis. *)
Definition blend (p t : Vec3) (f : R) : Vec3 :=
  (vx p + (vx t - vx p) * f, vy p + (vy t - vy p) * f, vz p + (vz t - vz p) * f).

(** The breathing offset of a particle with target [t]. *)
Definition breath (time : R) (t : Vec3) : R := sin (time * 1.5 + vx t * 0.1) * 0.5.

(** The homing gate, on the damped velocity. *)
Definition homing (v1 : Vec3) : bool := ltb (Rabs (vx v1)) 0.1.

(** The integrator step as the specification words it, for one particle
    with position [p], velocity [v] and target [t]: the new position and the
    new velocity. *)
Definition integrator_step (fs time : R) (p v t : Vec3) : Vec3 * Vec3 :=
  let p1 := vadd p v in
  let v1 := vscale 0.94 v in
  let b := breath time t in
  if homing v1 then (blend p1 (vx t, vy t, vz t + b) fs, v1)
  else (p1, v1).

(** A system of [n] particles: four buffers of [3n] entries. *)
Definition well_formed (n : nat) (g : Geometry) : Prop :=
  length (position g) = (n * 3)%nat /\
  length (target g) = (n * 3)%nat /\
  length (color g) = (n * 3)%nat /\
  length (velocity g) = (n * 3)%nat.

(** The colour of a particle, from the colour buffer. *)
Definition particle_color (buf : list R) (i : nat) : Color :=
  {| cr := F32.get buf (i * 3); cg := F32.get buf (i * 3 + 1); cb := F32.get buf (i * 3 + 2) |}.

(** The colour classes of a main particle as the specification words them,
    decided on a point [(x, y)]: the inner colour blended 70/30 toward
    white in the top central dip, the core colour blended toward the outer
    colour by a fraction in [0, 1) at the outer extremities, and the core
    colour scaled by a brightness factor in [0.8, 1.2] in the main body. *)
Definition color_class (cfg : Config) (x y : R) (c : Color) : Prop :=
  if ltb (Rabs x) 2 && gtb y 0 then
    c = lerp (inner (colors cfg)) white 0.3
  else if gtb (sqrt (x * x + y * y)) 14 then
    exists f, 0 <= f < 1 /\ c = lerp (core (colors cfg)) (outer (colors cfg)) f
  else
    exists k, 0.8 <= k <= 1.2 /\ c = multiplyScalar (core (colors cfg)) k.

(** The unit direction of the impulse on a particle at [p]: the position
    over its length, the length replaced by 1 at the origin. *)
Definition direction (p : Vec3) : Vec3 :=
  let len := explode_len (vx p) (vy p) (vz p) in
  (vx p / len, vy p / len, vz p / len).

(** The force of the impulse that the draw [r] gives. *)
Definition force (cfg : Config) (r : R) : R := r * explosionForce cfg + 1.0.

(** The outward velocity of a particle at [p]: the component of [v] along
    the direction from the origin to [p]. *)
Definition outward (v p : Vec3) : R := dot v (direction p).

(** The spawn box: every axis within [-150, 150]. *)
Definition in_box (p : Vec3) : Prop :=
  -150 <= vx p <= 150 /\ -150 <= vy p <= 150 /\ -150 <= vz p <= 150.

(** ** Runs of the simulation *)

(** The two systems of the scene. *)
Record World : Type := mkWorld {
  mainHeart : System;
  auraHeart : System
}.

(** [createParticleSystem(CONFIG.particleCount, 0.4, 0.9, false)] and
    [createParticleSystem(CONFIG.auraCount, 1.2, 0.3, true)]. *)
Definition createSystems (cfg : Config) : Rand World :=
  main <- createParticleSystem cfg (N.to_nat (particleCount cfg)) 0.4 0.9 false ;;
  aur <- createParticleSystem cfg (N.to_nat (auraCount cfg)) 1.2 0.3 true ;;
  ret {| mainHeart := main; auraHeart := aur |}.

(** [explode(system.geometry)]: the geometry of a system is replaced by the
    exploded one. *)
Definition explodeSystem (cfg : Config) (s : System) : Rand System :=
  geo <- explode cfg (geometry s) ;;
  ret {| geometry := geo; material := material s; rotation_y := rotation_y s |}.

(** The [pointerdown] handler. *)
Definition pointerdown (cfg : Config) (w : World) : Rand World :=
  main <- explodeSystem cfg (mainHeart w) ;;
  aur <- explodeSystem cfg (auraHeart w) ;;
  ret {| mainHeart := main; auraHeart := aur |}.

(** One frame of [animate], at the elapsed time [time] of the clock. *)
Definition animate (cfg : Config) (w : World) (time : R) : World :=
  {| mainHeart := animateSystem cfg (mainHeart w) time;
     auraHeart := animateSystem cfg (auraHeart w) time |}.

(** What happens after the systems are created: a frame at a given elapsed
    time, or a pointer press. *)
Inductive Op : Type :=
| Tick (time : R)
| Impulse.

Definition step (cfg : Config) (w : World) (op : Op) : Rand World :=
  match op with
  | Tick time => ret (animate cfg w time)
  | Impulse => pointerdown cfg w
  end.

Fixpoint run (cfg : Config) (ops : list Op) (w : World) : Rand World :=
  match ops with
  | [] => ret w
  | op :: ops' => w' <- step cfg w op ;; run cfg ops' w'
  end.

(** The buffers that never change, of both systems. *)
Definition fixed_buffers (w : World) : list R * list R * (list R * list R) :=
  (target (geometry (mainHeart w)), color (geometry (mainHeart w)),
   (target (geometry (auraHeart w)), color (geometry (auraHeart w)))).

(** Frames only, at the given elapsed times. *)
Definition ticks (cfg : Config) (s : System) (times : list R) : System :=
  fold_left (animateSystem cfg) times s.

(** ** Sample systems *)

(** A resting particle at the origin with target (10, 0, 0). *)
Definition rest_system : System :=
  {| geometry := {| position := [0; 0; 0];
                    target := [10; 0; 0];
                    color := [1; 1; 1];
                    velocity := [0; 0; 0];
                    position_needsUpdate := false |};
     material := {| size := 0.4; opacity := 0.9 |};
     rotation_y := 0 |}.

(** The same particle with other colours, another material and another
    angle. *)
Definition rest_system' : System :=
  {| geometry := {| position := [0; 0; 0];
                    target := [10; 0; 0];
                    color := [0; 0.5; 0];
                    velocity := [0; 0; 0];
                    position_needsUpdate := true |};
     material := {| size := 1.2; opacity := 0.3 |};
     rotation_y := 0.1 |}.

(** A particle at (3, 0, 4) that moves along x, and a particle at the
    origin. *)
Definition moving_system : System :=
  {| geometry := {| position := [3; 0; 4; 0; 0; 0];
                    target := [10; 0; 0; 0; 5; 0];
                    color := [1; 1; 1; 1; 0; 0];
                    velocity := [2; 0; 0; 0; 1; 0];
                    position_needsUpdate := false |};
     material := {| size := 0.4; opacity := 0.9 |};
     rotation_y := 0 |}.

(** A source whose every draw is one half. *)
Definition half_draws : nat -> R := fun _ => 0.5.

(** A source for one main particle: the curve parameter is drawn as one
    half, the scale draw and the colour draw as zero, every other draw as
    one half. *)
Definition tip_draws : nat -> R :=
  fun k => match k with
           | 1%nat | 5%nat => 0
           | _ => 0.5
           end.

(** ** Doubles and singles

    IEEE 754 numbers as sign, mantissa and exponent, rounded to nearest,
    ties to even: a double has 53 bits of mantissa, a single 24. *)

Module Single.

(** The double that a numeric literal [m * 2^e] denotes. *)
Definition lit (m e : Z) : spec_float := binary_normalize 53 1024 m e false.

Definition lit_3_5 : spec_float := lit 7 (-1).
Definition lit_1_0 : spec_float := lit 1 0.





(** [Math.random() * CONFIG.explosionForce + 1.0], for the draw [r] and the
    configured force 3.5. *)
Definition force (r : spec_float) : spec_float :=
  SFadd 53 1024 (SFmul 53 1024 r lit_3_5) lit_1_0.



Definition largest_draw : spec_float := lit (2 ^ 53 - 1) (-53).

End Single.


(** ** Background stars *)

(** One pass of the loop of [createBackground]: [pos.push(x, y, z)]. *)
Definition backgroundBody (i : nat) (pos : list R) : Rand (list R) :=
  r0 <- random ;;
  r1 <- random ;;
  r2 <- random ;;
  ret (pos ++ [(r0 - 0.5) * 400; (r1 - 0.5) * 400; (r2 - 0.5) * 400]).

(** The position list that the loop of [createBackground] builds and hands
    to the geometry of the stars.  What the constructors of the rendering
    library do around the loop, also to the random source, is outside the
    model. *)
Definition createBackground : Rand (list R) :=
  for_loop backgroundBody 0 2000 [].

(** ** The scatter of a target around the curve *)

(** The range of the radial scale factor and the half widths of the jitter,
    for the aura and for the main system. *)
Definition scale_lo (isAura : bool) : R := if isAura then 1 else 0.8.
Definition scale_hi (isAura : bool) : R := if isAura then 1.4 else 1.
Definition jitter_xy (isAura : bool) : R := if isAura then 2 else 0.75.
Definition jitter_z (isAura : bool) : R := if isAura then 6 else 2.5.

(** A target that is a point of the curve, scaled from the origin and
    moved by a bounded jitter on each axis. *)
Definition scattered (isAura : bool) (t : Vec3) : Prop :=
  exists u scale,
    0 <= u < 2 * PI /\
    scale_lo isAura <= scale <= scale_hi isAura /\
    Rabs (vx t - px (getHeartPoint u) * scale) <= jitter_xy isAura /\
    Rabs (vy t - py (getHeartPoint u) * scale) <= jitter_xy isAura /\
    Rabs (vz t) <= jitter_z isAura.

(** The homing target of a frame: the target with the breathing offset of
    that frame on z. *)
Definition breathing_target (time : R) (t : Vec3) : Vec3 :=
  (vx t, vy t, vz t + breath time t).

(** The configuration with [explosionForce] set to 0. *)
Definition calm_config : Config := {|
  particleCount := particleCount CONFIG;
  auraCount := auraCount CONFIG;
  explosionForce := 0;
  formationSpeed := formationSpeed CONFIG;
  colors := colors CONFIG
|}.

(** Four resting particles at distance 1 from the origin. *)
Definition compass_system : System :=
  {| geometry := {| position := [1; 0; 0; 0; 1; 0; -1; 0; 0; 0; -1; 0];
                    target := [0; 0; 0; 0; 0; 0; 0; 0; 0; 0; 0; 0];
                    color := [1; 1; 1; 1; 1; 1; 1; 1; 1; 1; 1; 1];
                    velocity := [0; 0; 0; 0; 0; 0; 0; 0; 0; 0; 0; 0];
                    position_needsUpdate := false |};
     material := {| size := 0.4; opacity := 0.9 |};
     rotation_y := 0 |}.

(** The first particle of [compass_system], alone, with other colours. *)
Definition lone_system : System :=
  {| geometry := {| position := [1; 0; 0];
                    target := [0; 0; 0];
                    color := [0; 0.5; 0];
                    velocity := [0; 0; 0];
                    position_needsUpdate := true |};
     material := {| size := 1.2; opacity := 0.3 |};
     rotation_y := 0.1 |}.

(** The particles of [compass_system], each at its target. *)
Definition settled_system : System :=
  {| geometry := {| position := position (geometry compass_system);
                    target := position (geometry compass_system);
                    color := color (geometry compass_system);
                    velocity := velocity (geometry compass_system);
                    position_needsUpdate := false |};
     material := material compass_system;
     rotation_y := 0 |}.

(** A scene of two small systems. *)
Definition sample_world : World :=
  {| mainHeart := moving_system; auraHeart := rest_system |}.

(** * Proofs *)

(** ** Typed arrays *)

Lemma set_length (a : list R) (i : nat) (v : R) :
  length (F32.set a i v) = length a.
Proof.
  revert i; induction a as [|hd tl IH]; intros [|j]; simpl; auto.
Qed.

Lemma get_set_eq (a : list R) (i : nat) (v : R) :
  (i < length a)%nat -> F32.get (F32.set a i v) i = v.
Proof.
  unfold F32.get; revert i; induction a as [|hd tl IH]; intros [|j] H; simpl in *;
    try lia; auto.
  apply IH; lia.
Qed.

Lemma get_set_ne (a : list R) (i j : nat) (v : R) :
  i <> j -> F32.get (F32.set a i v) j = F32.get a j.
Proof.
  unfold F32.get; revert i j; induction a as [|hd tl IH]; intros [|i] [|j] H; simpl;
    try congruence; auto.
Qed.

Lemma alloc_length (n : nat) : length (F32.alloc n) = n.
Proof. apply repeat_length. Qed.

Lemma loop_bound_mul3 (n : nat) : loop_bound (n * 3) = n.
Proof.
  unfold loop_bound.
  symmetry. apply (Nat.div_unique (n * 3 + 2) 3 n 2); lia.
Qed.

(** Reads after writes, with the side conditions on indices solved. *)
Ltac f32 :=
  repeat (first
    [ rewrite set_length
    | rewrite get_set_eq by (rewrite ?set_length; lia)
    | rewrite get_set_ne by lia ]).

Lemma animateBody_spec cfg time ts ps vs i :
  ((i * 3 + 2) < length ps)%nat -> length vs = length ps ->
  let st' := animateBody cfg time ts (ps, vs) i in
  length (fst st') = length ps /\ length (snd st') = length vs /\
  particle (fst st') i =
    fst (integrator_step (formationSpeed cfg) time (particle ps i) (particle vs i) (particle ts i)) /\
  particle (snd st') i =
    snd (integrator_step (formationSpeed cfg) time (particle ps i) (particle vs i) (particle ts i)) /\
  (forall j, j <> i -> particle (fst st') j = particle ps j /\ particle (snd st') j = particle vs j).
Proof.
  intros Hi Hl. unfold animateBody, integrator_step, homing, breath, particle, blend, vadd, vscale, vx, vy, vz.
  cbn [fst snd]. f32.
  replace (0.94 * F32.get vs (i * 3)) with (F32.get vs (i * 3) * 0.94) by ring.
  destruct (ltb _ _); cbn [fst snd]; f32; repeat split; try reflexivity;
   try (f_equal; [f_equal|]; ring); intros; f32; reflexivity.
Qed.

Lemma animate_loop cfg time ts ps vs N n :
  length ps = (N * 3)%nat -> length vs = (N * 3)%nat -> (n <= N)%nat ->
  let st := fold_left (animateBody cfg time ts) (seq 0 n) (ps, vs) in
  length (fst st) = length ps /\ length (snd st) = length vs /\
  forall j,
    ((j < n)%nat ->
       particle (fst st) j =
         fst (integrator_step (formationSpeed cfg) time (particle ps j) (particle vs j) (particle ts j)) /\
       particle (snd st) j =
         snd (integrator_step (formationSpeed cfg) time (particle ps j) (particle vs j) (particle ts j))) /\
    ((n <= j)%nat -> particle (fst st) j = particle ps j /\ particle (snd st) j = particle vs j).
Proof.
  intros Hp Hv. induction n as [|n IH]; intros Hn.
  - simpl. repeat split; auto; lia.
  - rewrite seq_S, fold_left_app. cbn [fold_left Nat.add].
    destruct IH as (Lp & Lv & IH); [lia|].
    destruct (fold_left (animateBody cfg time ts) (seq 0 n) (ps, vs)) as [ps' vs'] eqn:E.
    cbn [fst snd] in *.
    destruct (animateBody_spec cfg time ts ps' vs' n) as (Lp' & Lv' & Sp & Sv & Fr);
      [lia | lia |].
    cbv zeta in *.
    split; [lia|]. split; [lia|].
    intros j. split.
    + intros Hj. destruct (Nat.eq_dec j n) as [->|Hne].
      * rewrite Sp, Sv. destruct (IH n) as [_ [-> ->]]; [lia|]. auto.
      * destruct (Fr j Hne) as [-> ->]. apply IH. lia.
    + intros Hj. destruct (Fr j) as [-> ->]; [lia|]. apply IH. lia.
Qed.

Lemma animateSystem_particle cfg s time n i :
  well_formed n (geometry s) -> (i < n)%nat ->
  let g := geometry s in
  let g' := geometry (animateSystem cfg s time) in
  let r := integrator_step (formationSpeed cfg) time
             (particle (position g) i) (particle (velocity g) i) (particle (target g) i) in
  particle (position g') i = fst r /\ particle (velocity g') i = snd r.
Proof.
  intros (Hp & Ht & Hc & Hv) Hi. cbv zeta. unfold animateSystem.
  rewrite Hp, loop_bound_mul3.
  pose proof (animate_loop cfg time (target (geometry s)) (position (geometry s))
                (velocity (geometry s)) n n Hp Hv (le_n n)) as H.
  cbv zeta in H.
  destruct (fold_left _ _ _) as [ps' vs']. cbn [fst snd geometry position velocity] in *.
  destruct H as (_ & _ & H). apply H; auto.
Qed.

Lemma animateSystem_well_formed cfg s time n :
  well_formed n (geometry s) -> well_formed n (geometry (animateSystem cfg s time)).
Proof.
  intros (Hp & Ht & Hc & Hv). unfold animateSystem.
  rewrite Hp, loop_bound_mul3.
  pose proof (animate_loop cfg time (target (geometry s)) (position (geometry s))
                (velocity (geometry s)) n n Hp Hv (le_n n)) as H.
  cbv zeta in H.
  destruct (fold_left _ _ _) as [ps' vs']. cbn [fst snd geometry position velocity target color] in *.
  destruct H as (L1 & L2 & _). unfold well_formed; cbn [position target color velocity]. rewrite L1, L2. auto.
Qed.

(** ** The integrator *)

(** C1. For every particle [i] of a system and every frame, [animateSystem]
    adds the velocity to the position on each axis, multiplies the velocity
    by 0.94 on each axis, computes breath = sin(time*1.5 + target.x*0.1)*0.5
    and then, exactly when |velocity.x| < 0.1 holds for the damped velocity,
    blends the position toward (target.x, target.y, target.z + breath) by
    [formationSpeed] on each axis; when the gate is false the position is
    only the old position plus the old velocity, on all three axes.  The
    configured [formationSpeed] is 0.025. *)
Theorem integrator_step_order (cfg : Config) (s : System) (time : R) (n i : nat) :
  well_formed n (geometry s) -> (i < n)%nat ->
  let p := particle (position (geometry s)) i in
  let v := particle (velocity (geometry s)) i in
  let t := particle (target (geometry s)) i in
  let s' := animateSystem cfg s time in
  let p1 := vadd p v in
  let v1 := vscale 0.94 v in
  let b := sin (time * 1.5 + vx t * 0.1) * 0.5 in
  particle (velocity (geometry s')) i = v1 /\
  (Rabs (vx v1) < 0.1 ->
     particle (position (geometry s')) i =
       blend p1 (vx t, vy t, vz t + b) (formationSpeed cfg)) /\
  (~ Rabs (vx v1) < 0.1 -> particle (position (geometry s')) i = p1) /\
  formationSpeed CONFIG = 0.025.
Proof.
  intros Hwf Hi. cbv zeta.
  destruct (animateSystem_particle cfg s time n i Hwf Hi) as [Hp Hv].
  cbv zeta in Hp, Hv. rewrite Hp, Hv. unfold integrator_step, homing, breath, ltb.
  destruct (Rlt_dec _ _) as [Hg|Hg]; cbn [fst snd]; repeat split; auto; intros; tauto.
Qed.

Lemma integrator_step_order_witness :
  well_formed 1 (geometry rest_system) /\ (0 < 1)%nat /\
  particle (velocity (geometry (animateSystem CONFIG rest_system 0))) 0 =
    vscale 0.94 (particle (velocity (geometry rest_system)) 0).
Proof.
  assert (W : well_formed 1 (geometry rest_system)) by (repeat split; reflexivity).
  assert (L : (0 < 1)%nat) by lia.
  split; [exact W|]. split; [exact L|].
  exact (proj1 (integrator_step_order CONFIG rest_system 0 1 0 W L)).
Defined.

(** The first frame of [rest_system] at time 0: the particle is at rest, so
    it homes, and moves a fortieth of the way to its target on x. *)
Example rest_system_first_frame :
  vx (particle (position (geometry (animateSystem CONFIG rest_system 0))) 0) = 0.25.
Proof.
  assert (W : well_formed 1 (geometry rest_system)) by (repeat split; reflexivity).
  destruct (animateSystem_particle CONFIG rest_system 0 1 0 W ltac:(lia)) as [Hp _].
  cbv zeta in Hp. rewrite Hp. unfold integrator_step, homing, ltb.
  destruct (Rlt_dec _ _) as [_|H].
  - cbv [fst snd blend vadd vx vy vz particle F32.get nth Nat.mul Nat.add
         rest_system geometry position velocity target CONFIG formationSpeed].
    lra.
  - exfalso. apply H.
    cbv [fst snd vscale vx particle F32.get nth Nat.mul Nat.add
         rest_system geometry velocity].
    replace (0.94 * 0) with 0 by ring. rewrite Rabs_R0. lra.
Qed.

(** C10. The per-frame step is deterministic and reads nothing but the
    position, target and velocity buffers and the elapsed time: two systems
    that agree on these three buffers have, after [animateSystem] at the
    same time, equal position buffers, equal velocity buffers and equal
    rotation angles, whatever else differs between them.  The step takes no
    random source: a frame leaves the state of [Math.random] as it was. *)
Theorem animateSystem_deterministic (cfg : Config) (s1 s2 : System) (time : R) :
  position (geometry s1) = position (geometry s2) ->
  target (geometry s1) = target (geometry s2) ->
  velocity (geometry s1) = velocity (geometry s2) ->
  position (geometry (animateSystem cfg s1 time)) =
    position (geometry (animateSystem cfg s2 time)) /\
  velocity (geometry (animateSystem cfg s1 time)) =
    velocity (geometry (animateSystem cfg s2 time)) /\
  rotation_y (animateSystem cfg s1 time) = rotation_y (animateSystem cfg s2 time) /\
  (forall w g, snd (step cfg w (Tick time) g) = g).
Proof.
  intros Hp Ht Hv. unfold animateSystem. rewrite Hp, Ht, Hv.
  destruct (fold_left _ _ _) as [ps vs]. cbn. auto.
Qed.

Lemma animateSystem_deterministic_witness :
  position (geometry rest_system) = position (geometry rest_system') /\
  color (geometry rest_system) <> color (geometry rest_system') /\
  position (geometry (animateSystem CONFIG rest_system 2)) =
    position (geometry (animateSystem CONFIG rest_system' 2)).
Proof.
  split; [reflexivity|]. split.
  - cbn. intros H. injection H as H _. lra.
  - exact (proj1 (animateSystem_deterministic CONFIG rest_system rest_system' 2
                    eq_refl eq_refl eq_refl)).
Defined.

(** ** Damping *)

Lemma dot_self_nonneg (v : Vec3) : 0 <= dot v v.
Proof. unfold dot. nra. Qed.



Lemma vscale_vscale (a b : R) (v : Vec3) : vscale a (vscale b v) = vscale (a * b) v.
Proof.
  unfold vscale, vx, vy, vz; cbn [fst snd]. f_equal; [f_equal|]; ring.
Qed.

Lemma vscale_1 (v : Vec3) : vscale 1 v = v.
Proof.
  destruct v as [[x y] z]. unfold vscale, vx, vy, vz; cbn [fst snd].
  f_equal; [f_equal|]; ring.
Qed.

Lemma animateSystem_velocity cfg s time n i :
  well_formed n (geometry s) -> (i < n)%nat ->
  particle (velocity (geometry (animateSystem cfg s time))) i =
    vscale 0.94 (particle (velocity (geometry s)) i).
Proof.
  intros Hwf Hi.
  destruct (animateSystem_particle cfg s time n i Hwf Hi) as [_ Hv].
  cbv zeta in Hv. rewrite Hv. unfold integrator_step.
  destruct (homing _); reflexivity.
Qed.

Lemma ticks_well_formed cfg times : forall s n,
  well_formed n (geometry s) -> well_formed n (geometry (ticks cfg s times)).
Proof.
  unfold ticks. induction times as [|time times IH]; intros s n Hwf; cbn [fold_left]; auto.
  apply IH. apply animateSystem_well_formed; auto.
Qed.

Lemma ticks_velocity cfg times : forall s n i,
  well_formed n (geometry s) -> (i < n)%nat ->
  particle (velocity (geometry (ticks cfg s times))) i =
    vscale (0.94 ^ length times) (particle (velocity (geometry s)) i).
Proof.
  unfold ticks. induction times as [|time times IH]; intros s n i Hwf Hi; cbn [fold_left length].
  - rewrite pow_O, vscale_1. reflexivity.
  - rewrite (IH _ n i (animateSystem_well_formed cfg s time n Hwf) Hi).
    rewrite (animateSystem_velocity cfg s time n i Hwf Hi).
    rewrite vscale_vscale. f_equal. simpl. ring.
Qed.

(** Powers of 0.94 fall below every positive bound and stay there. *)
Lemma damping_vanishes (m eps : R) :
  0 <= m -> 0 < eps ->
  exists k, forall j, (k <= j)%nat -> 0.94 ^ j * m < eps.
Proof.
  intros Hm He.
  destruct (Req_dec m 0) as [->|Hne].
  - exists 0%nat. intros j _. lra.
  - assert (Hpos : 0 < m) by lra.
    destruct (pow_lt_1_zero 0.94) with (y := eps / m) as [k Hk].
    + rewrite Rabs_pos_eq; lra.
    + apply Rdiv_lt_0_compat; auto.
    + exists k. intros j Hj. specialize (Hk j Hj).
      rewrite Rabs_pos_eq in Hk by (apply pow_le; lra).
      apply (Rmult_lt_compat_r m) in Hk; auto.
      replace (eps / m * m) with eps in Hk by (field; auto). exact Hk.
Qed.








(** ** Loops that draw random numbers *)

(** The invariant rule of [for_loop]. *)
Lemma for_loop_inv {S : Type} (body : nat -> S -> Rand S)
    (Inv : nat -> S -> Rng -> Prop) (n : nat) : forall i s g,
  (forall j s g, (i <= j < i + n)%nat -> Inv j s g ->
     Inv (Datatypes.S j) (fst (body j s g)) (snd (body j s g))) ->
  Inv i s g ->
  Inv (i + n)%nat (fst (for_loop body i n s g)) (snd (for_loop body i n s g)).
Proof.
  induction n as [|n IH]; intros i s g Hbody Hinv.
  - rewrite Nat.add_0_r. exact Hinv.
  - cbn [for_loop]. unfold bind.
    pose proof (Hbody i s g ltac:(lia) Hinv) as H1.
    destruct (body i s g) as [s1 g1]. cbn [fst snd] in H1.
    replace (i + Datatypes.S n)%nat with (Datatypes.S i + n)%nat by lia.
    apply IH; auto.
    intros j s' g' Hj. apply Hbody. lia.
Qed.

(** ** The impulse *)

Lemma explodeBody_spec cfg pos i vel g :
  (i * 3 + 2 < length vel)%nat ->
  let r := explodeBody cfg pos i vel g in
  length (fst r) = length vel /\
  draws (snd r) = draws g /\ next (snd r) = Datatypes.S (next g) /\
  particle (fst r) i =
    vadd (particle vel i) (vscale (force cfg (draws g (next g))) (direction (particle pos i))) /\
  (forall j, j <> i -> particle (fst r) j = particle vel j).
Proof.
  intros Hi. unfold explodeBody, bind, random, ret. cbn [fst snd draws next].
  f32. repeat split; auto.
  - unfold particle, vadd, vscale, direction, force, vx, vy, vz. cbn [fst snd]. f32.
    f_equal; [f_equal|]; ring.
  - intros j Hj. unfold particle. f32. reflexivity.
Qed.

Lemma explode_loop cfg pos vel0 g0 n :
  length vel0 = (n * 3)%nat ->
  let r := for_loop (explodeBody cfg pos) 0 n vel0 g0 in
  length (fst r) = length vel0 /\
  draws (snd r) = draws g0 /\ next (snd r) = (next g0 + n)%nat /\
  forall j, (j < n)%nat ->
    particle (fst r) j =
      vadd (particle vel0 j)
           (vscale (force cfg (draws g0 (next g0 + j))) (direction (particle pos j))).
Proof.
  intros Hlen.
  pose (Inv := fun (k : nat) (vel : list R) (g : Rng) =>
    length vel = length vel0 /\ draws g = draws g0 /\ next g = (next g0 + k)%nat /\
    forall j,
      ((j < k)%nat -> particle vel j =
         vadd (particle vel0 j)
              (vscale (force cfg (draws g0 (next g0 + j))) (direction (particle pos j)))) /\
      ((k <= j)%nat -> particle vel j = particle vel0 j)).
  assert (H : Inv (0 + n)%nat (fst (for_loop (explodeBody cfg pos) 0 n vel0 g0))
                              (snd (for_loop (explodeBody cfg pos) 0 n vel0 g0))).
  { apply for_loop_inv.
    - intros j vel g Hj (Hl & Hd & Hn & Hp).
      destruct (explodeBody_spec cfg pos j vel g) as (Hl' & Hd' & Hn' & Hj' & Hne'); [lia|].
      cbv zeta in *. unfold Inv. rewrite Hl', Hd', Hn'.
      split; [auto|]. split; [auto|]. split; [lia|].
      intros k. split; intros Hk.
      + destruct (Nat.eq_dec k j) as [->|Hkj].
        * rewrite Hj'. rewrite Hd, Hn. f_equal. apply Hp. lia.
        * rewrite Hne' by auto. apply Hp. lia.
      + rewrite Hne' by lia. apply Hp. lia.
    - unfold Inv. rewrite Nat.add_0_r. repeat split; auto; lia. }
  cbn [Nat.add] in H. destruct H as (Hl & Hd & Hn & Hp).
  cbv zeta. repeat split; auto. intros j Hj. apply Hp; auto.
Qed.

(** What [explode] does to a system of [n] particles: every buffer but the
    velocity is what it was, the source has handed out [n] draws, and
    particle [i] received the impulse of the [i]-th of them. *)
Lemma explode_spec cfg geo g n :
  well_formed n geo ->
  let r := explode cfg geo g in
  position (fst r) = position geo /\ target (fst r) = target geo /\
  color (fst r) = color geo /\
  well_formed n (fst r) /\
  draws (snd r) = draws g /\ next (snd r) = (next g + n)%nat /\
  forall i, (i < n)%nat ->
    particle (velocity (fst r)) i =
      vadd (particle (velocity geo) i)
           (vscale (force cfg (draws g (next g + i))) (direction (particle (position geo) i))).
Proof.
  intros (Hp & Ht & Hc & Hv). cbv zeta. unfold explode, bind, ret.
  rewrite Hp, loop_bound_mul3.
  pose proof (explode_loop cfg (position geo) (velocity geo) g n Hv) as H. cbv zeta in H.
  destruct (for_loop _ _ _ _ _) as [vel g']. cbn [fst snd position target color velocity] in *.
  destruct H as (Hl & Hd & Hn & Hpart).
  repeat split; auto. cbn. lia.
Qed.

Lemma explode_len_pos (x y z : R) : 0 < explode_len x y z.
Proof.
  unfold explode_len. destruct (Req_dec_T _ 0) as [E|E]; [lra|].
  pose proof (sqrt_pos (x * x + y * y + z * z)). lra.
Qed.

Lemma explode_len_origin : explode_len 0 0 0 = 1.
Proof.
  unfold explode_len. replace (0 * 0 + 0 * 0 + 0 * 0) with 0 by ring.
  rewrite sqrt_0. destruct (Req_dec_T 0 0); [reflexivity | contradiction].
Qed.

Lemma direction_origin : direction (0, 0, 0) = (0, 0, 0).
Proof.
  unfold direction, vx, vy, vz. cbn [fst snd]. rewrite explode_len_origin.
  f_equal; [f_equal|]; field.
Qed.

Lemma vadd_zero (v : Vec3) (k : R) : vadd v (vscale k (0, 0, 0)) = v.
Proof.
  destruct v as [[x y] z]. unfold vadd, vscale, vx, vy, vz. cbn [fst snd].
  f_equal; [f_equal|]; ring.
Qed.

Lemma nonzero_dot_pos (p : Vec3) : p <> (0, 0, 0) -> 0 < dot p p.
Proof.
  destruct p as [[x y] z]. intros H. unfold dot, vx, vy, vz. cbn [fst snd].
  destruct (Req_dec x 0) as [->|Hx]; [|nra].
  destruct (Req_dec y 0) as [->|Hy]; [|nra].
  destruct (Req_dec z 0) as [->|Hz]; [|nra].
  contradiction H; reflexivity.
Qed.

Lemma explode_len_magnitude (p : Vec3) :
  p <> (0, 0, 0) -> explode_len (vx p) (vy p) (vz p) = magnitude p.
Proof.
  intros H. unfold explode_len, magnitude. fold (dot p p).
  destruct (Req_dec_T _ 0) as [E|E]; [|reflexivity].
  apply sqrt_eq_0 in E; [| apply dot_self_nonneg].
  pose proof (nonzero_dot_pos p H). lra.
Qed.

Lemma dot_direction_position (p : Vec3) : 0 <= dot (direction p) p.
Proof.
  unfold direction, dot at 1. cbn [vx vy vz fst snd].
  pose proof (explode_len_pos (vx p) (vy p) (vz p)) as Hl.
  set (l := explode_len _ _ _) in *.
  replace (vx p / l * vx p + vy p / l * vy p + vz p / l * vz p)
    with (dot p p / l) by (unfold dot; field; lra).
  apply Rmult_le_pos; [apply dot_self_nonneg|].
  left. apply Rinv_0_lt_compat; auto.
Qed.

Lemma dot_direction_unit (p : Vec3) :
  p <> (0, 0, 0) -> dot (direction p) (direction p) = 1.
Proof.
  intros H. unfold direction. rewrite (explode_len_magnitude p H).
  pose proof (nonzero_dot_pos p H) as Hd.
  assert (Hm : 0 < magnitude p) by (apply sqrt_lt_R0; auto).
  unfold dot at 1. cbn [vx vy vz fst snd].
  replace (vx p / magnitude p * (vx p / magnitude p) +
           vy p / magnitude p * (vy p / magnitude p) +
           vz p / magnitude p * (vz p / magnitude p))
    with (dot p p / (magnitude p * magnitude p)) by (unfold dot; field; lra).
  unfold magnitude. rewrite sqrt_sqrt by lra. field. lra.
Qed.

Lemma force_range cfg r :
  0 <= explosionForce cfg -> 0 <= r < 1 ->
  1 <= force cfg r <= 1 + explosionForce cfg.
Proof. intros HE Hr. unfold force. nra. Qed.

(** An impulse on [moving_system] with every draw one half: the force is
    2.75, the first particle, at (3, 0, 4), is pushed along (0.6, 0, 0.8). *)
Example moving_system_impulse :
  particle (velocity (fst (explode CONFIG (geometry moving_system)
                             {| draws := half_draws; next := 0 |}))) 0 = (3.65, 0, 2.2).
Proof.
  assert (W : well_formed 2 (geometry moving_system)) by (repeat split; reflexivity).
  destruct (explode_spec CONFIG (geometry moving_system)
              {| draws := half_draws; next := 0 |} 2 W) as (_ & _ & _ & _ & _ & _ & H).
  cbv zeta in H. rewrite (H 0%nat ltac:(lia)).
  assert (Hl : explode_len 3 0 4 = 5).
  { unfold explode_len. replace (3 * 3 + 0 * 0 + 4 * 4) with (5 * 5) by ring.
    rewrite sqrt_square by lra. destruct (Req_dec_T 5 0); lra. }
  cbv [direction force half_draws draws next vadd vscale fst snd vx vy vz particle
       F32.get nth Nat.mul Nat.add moving_system geometry position velocity CONFIG
       explosionForce].
  rewrite Hl. f_equal; [f_equal|]; lra.
Qed.

(** C5. A particle whose position is exactly the origin: the length is
    replaced by 1, the direction of its impulse is the zero vector, and
    [explode] leaves its velocity as it was.  The divisor of the
    normalization is never zero, for any position. *)
Theorem explode_at_origin (cfg : Config) (geo : Geometry) (g : Rng) (n i : nat) :
  well_formed n geo -> (i < n)%nat ->
  particle (position geo) i = (0, 0, 0) ->
  explode_len 0 0 0 = 1 /\
  direction (particle (position geo) i) = (0, 0, 0) /\
  particle (velocity (fst (explode cfg geo g))) i = particle (velocity geo) i /\
  (forall x y z, explode_len x y z <> 0).
Proof.
  intros Hwf Hi Hp.
  destruct (explode_spec cfg geo g n Hwf) as (_ & _ & _ & _ & _ & _ & Hv).
  cbv zeta in Hv. rewrite (Hv i Hi), Hp, direction_origin, vadd_zero.
  repeat split; auto using explode_len_origin.
  intros x y z. pose proof (explode_len_pos x y z). lra.
Qed.

Lemma explode_at_origin_witness :
  well_formed 2 (geometry moving_system) /\ (1 < 2)%nat /\
  particle (position (geometry moving_system)) 1 = (0, 0, 0) /\
  particle (velocity (fst (explode CONFIG (geometry moving_system)
                             {| draws := half_draws; next := 0 |}))) 1 =
    particle (velocity (geometry moving_system)) 1.
Proof.
  assert (W : well_formed 2 (geometry moving_system)) by (repeat split; reflexivity).
  assert (L : (1 < 2)%nat) by lia.
  assert (P : particle (position (geometry moving_system)) 1 = (0, 0, 0)) by reflexivity.
  split; [exact W|]. split; [exact L|]. split; [exact P|].
  exact (proj1 (proj2 (proj2
    (explode_at_origin CONFIG (geometry moving_system)
       {| draws := half_draws; next := 0 |} 2 1 W L P)))).
Defined.

Lemma dot_vadd_l (a b c : Vec3) : dot (vadd a b) c = dot a c + dot b c.
Proof. unfold dot, vadd, vx, vy, vz. cbn [fst snd]. ring. Qed.

Lemma dot_vscale_l (k : R) (a c : Vec3) : dot (vscale k a) c = k * dot a c.
Proof. unfold dot, vscale, vx, vy, vz. cbn [fst snd]. ring. Qed.

Lemma vsub_vadd (a b : Vec3) : vsub (vadd a b) a = b.
Proof.
  destruct a as [[a1 a2] a3], b as [[b1 b2] b3].
  unfold vsub, vadd, vx, vy, vz. cbn [fst snd]. f_equal; [f_equal|]; ring.
Qed.

(** Two impulses in a row: the second one starts from the velocity the
    first one left, at the same positions. *)
Lemma explode_twice_spec cfg geo g n i :
  well_formed n geo -> (i < n)%nat ->
  let r1 := explode cfg geo g in
  let r2 := explode cfg (fst r1) (snd r1) in
  particle (velocity (fst r2)) i =
    vadd (particle (velocity (fst r1)) i)
         (vscale (force cfg (draws g (next g + n + i)))
                 (direction (particle (position geo) i))).
Proof.
  intros Hwf Hi. cbv zeta.
  destruct (explode_spec cfg geo g n Hwf) as (Hp & _ & _ & Hwf1 & Hd & Hn & _).
  cbv zeta in *.
  destruct (explode_spec cfg (fst (explode cfg geo g)) (snd (explode cfg geo g)) n Hwf1)
    as (_ & _ & _ & _ & _ & _ & Hv2).
  cbv zeta in Hv2. rewrite (Hv2 i Hi), Hp, Hd, Hn. reflexivity.
Qed.

(** In doubles the force reaches the upper end of its range: the largest
    double below 1, taken as the draw, gives 3.5 * draw + 1.0 = 4.5
    exactly. *)
Lemma force_of_the_largest_draw :
  SFltb Single.largest_draw Single.lit_1_0 = true /\
  Single.force Single.largest_draw = Single.lit 9 (-1).
Proof. split; vm_compute; reflexivity. Qed.

(** C2, as the code has it.  One call of [explode] adds to the velocity of
    every particle, on each axis, the force times the particle's current
    position over its length; the force is the draw times [explosionForce]
    plus 1, at least 1 and at most 1 + [explosionForce], and
    [explosionForce] is configured as 3.5.  For a particle away from the
    origin the length is the Euclidean norm of the position.  The change of
    velocity has a non-negative dot product with the position.  For a
    particle away from the origin, two calls in a row leave a strictly
    larger outward velocity than one call. *)
Theorem impulse_adds_outward (cfg : Config) (geo : Geometry) (g : Rng) (n i : nat) :
  well_formed n geo -> (i < n)%nat ->
  unit_draws (draws g) -> 0 <= explosionForce cfg ->
  let p := particle (position geo) i in
  let v := particle (velocity geo) i in
  let r1 := explode cfg geo g in
  let r2 := explode cfg (fst r1) (snd r1) in
  let v1 := particle (velocity (fst r1)) i in
  let v2 := particle (velocity (fst r2)) i in
  let f := force cfg (draws g (next g + i)) in
  v1 = vadd v (vscale f (direction p)) /\
  f = draws g (next g + i) * explosionForce cfg + 1 /\
  1 <= f <= 1 + explosionForce cfg /\
  explosionForce CONFIG = 3.5 /\
  (p <> (0, 0, 0) -> direction p = (vx p / magnitude p, vy p / magnitude p, vz p / magnitude p)) /\
  0 <= dot (vsub v1 v) p /\
  (p <> (0, 0, 0) -> outward v2 p > outward v1 p).
Proof.
  intros Hwf Hi Hd HE. cbv zeta.
  destruct (explode_spec cfg geo g n Hwf) as (_ & _ & _ & _ & _ & _ & Hv).
  cbv zeta in Hv. specialize (Hv i Hi).
  pose proof (force_range cfg _ HE (Hd (next g + i)%nat)) as Hf.
  split; [exact Hv|]. split; [unfold force; lra|].
  split; [exact Hf|]. split; [reflexivity|]. split; [|split].
  - intros Hp. unfold direction. rewrite (explode_len_magnitude _ Hp). reflexivity.
  - rewrite Hv, vsub_vadd, dot_vscale_l.
    apply Rmult_le_pos; [lra | apply dot_direction_position].
  - intros Hp. rewrite (explode_twice_spec cfg geo g n i Hwf Hi).
    unfold outward. rewrite dot_vadd_l, dot_vscale_l, (dot_direction_unit _ Hp).
    pose proof (force_range cfg _ HE (Hd (next g + n + i)%nat)). lra.
Qed.

Lemma half_draws_unit : unit_draws half_draws.
Proof. intros k. unfold half_draws. lra. Qed.

Lemma impulse_adds_outward_witness :
  well_formed 2 (geometry moving_system) /\ (0 < 2)%nat /\
  unit_draws half_draws /\ 0 <= explosionForce CONFIG /\
  particle (velocity (fst (explode CONFIG (geometry moving_system)
                             {| draws := half_draws; next := 0 |}))) 0 =
    vadd (particle (velocity (geometry moving_system)) 0)
         (vscale (force CONFIG (half_draws 0))
                 (direction (particle (position (geometry moving_system)) 0))).
Proof.
  assert (W : well_formed 2 (geometry moving_system)) by (repeat split; reflexivity).
  assert (L : (0 < 2)%nat) by lia.
  assert (E : 0 <= explosionForce CONFIG) by (cbn; lra).
  split; [exact W|]. split; [exact L|]. split; [exact half_draws_unit|]. split; [exact E|].
  exact (proj1 (impulse_adds_outward CONFIG (geometry moving_system)
                  {| draws := half_draws; next := 0 |} 2 0 W L half_draws_unit E)).
Defined.

(** C2 as stated fails for a particle at the origin: the second particle of
    [moving_system] has, after two impulses, the velocity it has after one,
    so its outward velocity is not strictly larger. *)
Lemma impulse_twice_at_origin_not_larger :
  let g := {| draws := half_draws; next := 0 |} in
  let p := particle (position (geometry moving_system)) 1 in
  let r1 := explode CONFIG (geometry moving_system) g in
  let r2 := explode CONFIG (fst r1) (snd r1) in
  particle (velocity (fst r2)) 1 = particle (velocity (fst r1)) 1 /\
  ~ outward (particle (velocity (fst r2)) 1) p > outward (particle (velocity (fst r1)) 1) p.
Proof.
  cbv zeta.
  assert (W : well_formed 2 (geometry moving_system)) by (repeat split; reflexivity).
  assert (L : (1 < 2)%nat) by lia.
  pose proof (explode_twice_spec CONFIG (geometry moving_system)
                {| draws := half_draws; next := 0 |} 2 1 W L) as H.
  cbv zeta in H.
  replace (particle (position (geometry moving_system)) 1) with ((0, 0, 0) : Vec3) in *
    by reflexivity.
  rewrite direction_origin, vadd_zero in H.
  split; [exact H|]. rewrite H. lra.
Qed.

(** ** Frame properties *)

Lemma animateSystem_frame cfg s time :
  target (geometry (animateSystem cfg s time)) = target (geometry s) /\
  color (geometry (animateSystem cfg s time)) = color (geometry s).
Proof.
  unfold animateSystem. destruct (fold_left _ _ _) as [ps vs]. cbn. auto.
Qed.

Lemma explode_frame cfg geo g :
  position (fst (explode cfg geo g)) = position geo /\
  target (fst (explode cfg geo g)) = target geo /\
  color (fst (explode cfg geo g)) = color geo.
Proof.
  unfold explode, bind, ret. destruct (for_loop _ _ _ _ _) as [vel g']. cbn. auto.
Qed.

Lemma explodeSystem_frame cfg s g :
  target (geometry (fst (explodeSystem cfg s g))) = target (geometry s) /\
  color (geometry (fst (explodeSystem cfg s g))) = color (geometry s).
Proof.
  unfold explodeSystem, bind, ret.
  pose proof (explode_frame cfg (geometry s) g) as (_ & Ht & Hc).
  destruct (explode cfg (geometry s) g) as [geo g']. cbn in *. auto.
Qed.

Lemma step_frame cfg op w g :
  fixed_buffers (fst (step cfg w op g)) = fixed_buffers w.
Proof.
  unfold fixed_buffers. destruct op as [time|]; cbn [step].
  - unfold ret, animate. cbn [fst mainHeart auraHeart].
    destruct (animateSystem_frame cfg (mainHeart w) time) as [-> ->].
    destruct (animateSystem_frame cfg (auraHeart w) time) as [-> ->]. reflexivity.
  - unfold pointerdown, bind, ret.
    pose proof (explodeSystem_frame cfg (mainHeart w) g) as [Ht Hc].
    destruct (explodeSystem cfg (mainHeart w) g) as [m g1]. cbn [fst] in Ht, Hc.
    pose proof (explodeSystem_frame cfg (auraHeart w) g1) as [Ht' Hc'].
    destruct (explodeSystem cfg (auraHeart w) g1) as [a g2]. cbn [fst] in Ht', Hc'.
    cbn [fst mainHeart auraHeart]. congruence.
Qed.

(** C6. Whatever sequence of frames and impulses the two systems go
    through, the target buffer and the colour buffer of each are what they
    were at the start; and [explode] returns the position buffer it was
    given. *)
Theorem target_and_color_are_fixed (cfg : Config) (ops : list Op) (w : World) (g : Rng) :
  let w' := fst (run cfg ops w g) in
  target (geometry (mainHeart w')) = target (geometry (mainHeart w)) /\
  color (geometry (mainHeart w')) = color (geometry (mainHeart w)) /\
  target (geometry (auraHeart w')) = target (geometry (auraHeart w)) /\
  color (geometry (auraHeart w')) = color (geometry (auraHeart w)) /\
  (forall geo g', position (fst (explode cfg geo g')) = position geo).
Proof.
  cbv zeta.
  assert (H : fixed_buffers (fst (run cfg ops w g)) = fixed_buffers w).
  { revert w g. induction ops as [|op ops IH]; intros w g; cbn [run]; [reflexivity|].
    unfold bind. pose proof (step_frame cfg op w g) as Hs.
    destruct (step cfg w op g) as [w1 g1]. cbn [fst] in Hs. rewrite IH. exact Hs. }
  unfold fixed_buffers in H. injection H as H1 H2 H3 H4.
  repeat split; auto. intros geo g'. apply explode_frame.
Qed.

(** ** The heart curve *)

(** C8. [getHeartPoint] is a total function of [t] alone and returns the
    point x = 16 sin(t)^3, y = 13 cos(t) - 5 cos(2t) - 2 cos(3t) - cos(4t). *)
Theorem getHeartPoint_formula (t : R) :
  getHeartPoint t =
    {| px := 16 * sin t ^ 3;
       py := 13 * cos t - 5 * cos (2 * t) - 2 * cos (3 * t) - cos (4 * t) |}.
Proof.
  unfold getHeartPoint, Math_pow. reflexivity.
Qed.

Lemma cos_3a (t : R) : cos (3 * t) = 4 * (cos t * cos t * cos t) - 3 * cos t.
Proof.
  replace (3 * t) with (2 * t + t) by ring.
  rewrite cos_plus, cos_2a_cos, sin_2a.
  pose proof (sin2_cos2 t) as H. unfold Rsqr in H.
  replace (2 * sin t * cos t * sin t) with (2 * cos t * (sin t * sin t)) by ring.
  replace (sin t * sin t) with (1 - cos t * cos t) by lra. ring.
Qed.

Lemma cos_4a (t : R) :
  cos (4 * t) = 8 * (cos t * cos t * cos t * cos t) - 8 * (cos t * cos t) + 1.
Proof.
  replace (4 * t) with (2 * (2 * t)) by ring.
  rewrite cos_2a_cos, cos_2a_cos. ring.
Qed.

(** The height of the curve as a polynomial in cos(t). *)
Lemma heart_y_poly (t : R) :
  py (getHeartPoint t) =
    - 8 * (cos t * cos t * cos t * cos t) - 8 * (cos t * cos t * cos t)
    - 2 * (cos t * cos t) + 19 * cos t + 4.
Proof.
  unfold getHeartPoint. cbn [py]. rewrite cos_2a_cos, cos_3a, cos_4a. ring.
Qed.

Lemma getHeartPoint_PI : getHeartPoint PI = {| px := 0; py := -17 |}.
Proof.
  assert (Hy : py (getHeartPoint PI) = -17) by (rewrite heart_y_poly, cos_PI; ring).
  unfold getHeartPoint in *. cbn [py] in Hy. rewrite Hy.
  unfold Math_pow. rewrite sin_PI. f_equal. ring.
Qed.

(** The curve stays below height 12. *)
Lemma heart_y_upper (t : R) : py (getHeartPoint t) <= 12.
Proof.
  rewrite heart_y_poly. set (c := cos t).
  pose proof (Rle_0_sqr (c * c + c / 2 - 0.7)) as H1.
  pose proof (Rle_0_sqr (c - 0.6)) as H2.
  unfold Rsqr in H1, H2. nra.
Qed.

(** C9 as stated fails: at t = PI, which lies in [0, 2 PI), the curve is at
    height -17, below -1. *)
Lemma heart_y_below_minus_one :
  0 <= PI < 2 * PI /\
  ~ (-1 <= py (getHeartPoint PI) <= 26).
Proof.
  pose proof PI_RGT_0. split; [lra|].
  rewrite getHeartPoint_PI. cbn [py]. lra.
Qed.

(** C9, as the code has it.  For every [t], so for every [t] in [0, 2 PI),
    the point of the curve has |x| <= 16 and y in [-17, 26]. *)
Theorem getHeartPoint_bounds (t : R) :
  Rabs (px (getHeartPoint t)) <= 16 /\
  -17 <= py (getHeartPoint t) <= 26.
Proof.
  split.
  - unfold getHeartPoint, Math_pow. cbn [px].
    pose proof (SIN_bound t) as [Hl Hu].
    apply Rabs_le. set (s := sin t) in *.
    assert (0 <= s * s <= 1) by nra.
    split; nra.
  - rewrite heart_y_poly.
    pose proof (COS_bound t) as [Hl Hu]. set (c := cos t) in *.
    assert (Hc2 : 0 <= c * c <= 1) by nra.
    assert (Hc3 : -1 <= c * c * c <= 1) by nra.
    split.
    + replace (- 8 * (c * c * c * c) - 8 * (c * c * c) - 2 * (c * c) + 19 * c + 4)
        with ((c + 1) * (- 8 * (c * c * c) - 2 * c + 21) - 17) by ring.
      assert (0 <= (c + 1) * (- 8 * (c * c * c) - 2 * c + 21)); [|lra].
      apply Rmult_le_pos; lra.
    + assert (0 <= c * c * c * c) by nra.
      nra.
Qed.

(** ** The initializer *)

Lemma scatter_draws isAura g : draws (snd (scatter isAura g)) = draws g.
Proof. unfold scatter, bind, random, ret. destruct isAura; reflexivity. Qed.

Lemma colorLogic_draws cfg isAura tx ty g :
  draws (snd (colorLogic cfg isAura tx ty g)) = draws g.
Proof.
  unfold colorLogic, bind, random, ret.
  destruct isAura; [reflexivity|].
  destruct (ltb (Rabs tx) 2 && gtb ty 0); [reflexivity|].
  destruct (gtb _ 14); reflexivity.
Qed.

Lemma colorLogic_class cfg tx ty g :
  unit_draws (draws g) ->
  color_class cfg tx ty (fst (colorLogic cfg false tx ty g)).
Proof.
  intros Hd. unfold colorLogic, color_class, bind, random, ret.
  destruct (ltb (Rabs tx) 2 && gtb ty 0); [reflexivity|].
  pose proof (Hd (next g)) as Hr.
  destruct (gtb _ 14); cbn [fst].
  - exists (draws g (next g)). auto.
  - exists (0.8 + draws g (next g) * 0.4). split; [lra | reflexivity].
Qed.

Lemma spawn_in_range (r : R) : 0 <= r < 1 -> -150 <= (r - 0.5) * 300 <= 150.
Proof. intros H. lra. Qed.

(** What one pass of the loop of [createParticleSystem] does to particle
    [i], and that it leaves every other particle alone. *)
Lemma createBody_spec cfg isAura i b g :
  unit_draws (draws g) ->
  (i * 3 + 2 < length (posArray b))%nat ->
  (i * 3 + 2 < length (targetArray b))%nat ->
  (i * 3 + 2 < length (colArray b))%nat ->
  (i * 3 + 2 < length (velArray b))%nat ->
  let r := createBody cfg isAura i b g in
  let b' := fst r in
  let sc := scatter isAura g in
  let t := snd (fst sc) in
  (length (posArray b') = length (posArray b) /\
   length (targetArray b') = length (targetArray b) /\
   length (colArray b') = length (colArray b) /\
   length (velArray b') = length (velArray b)) /\
  draws (snd r) = draws g /\
  particle (velArray b') i = (0, 0, 0) /\
  in_box (particle (posArray b') i) /\
  particle (targetArray b') i = t /\
  particle_color (colArray b') i = fst (colorLogic cfg isAura (vx t) (vy t) (snd sc)) /\
  (forall j, j <> i ->
     particle (posArray b') j = particle (posArray b) j /\
     particle (targetArray b') j = particle (targetArray b) j /\
     particle_color (colArray b') j = particle_color (colArray b) j /\
     particle (velArray b') j = particle (velArray b) j).
Proof.
  intros Hd Lp Lt Lc Lv. cbv zeta.
  pose proof (scatter_draws isAura g) as Hsd.
  set (r := createBody cfg isAura i b g).
  assert (Er : r = createBody cfg isAura i b g) by reflexivity. clearbody r.
  unfold createBody, bind in Er. revert Er.
  destruct (scatter isAura g) as [[p [[tx ty] tz]] g1]. cbn [fst snd vx vy] in *.
  pose proof (colorLogic_draws cfg isAura tx ty g1) as Hcd.
  destruct (colorLogic cfg isAura tx ty g1) as [c g2]. cbn [fst snd] in *.
  unfold random, ret. intros ->.
  cbn [fst snd draws next posArray targetArray colArray velArray].
  assert (Hd2 : unit_draws (draws g2)) by (rewrite Hcd, Hsd; exact Hd).
  split; [f32; auto|]. split; [congruence|].
  split; [unfold particle; f32; reflexivity|].
  split.
  { unfold in_box, particle, vx, vy, vz. cbn [fst snd]. f32.
    repeat split; apply spawn_in_range; apply Hd2. }
  split; [unfold particle; f32; reflexivity|].
  split; [unfold particle_color; f32; destruct c; reflexivity|].
  intros j Hj. unfold particle, particle_color. f32. auto.
Qed.

(** What the initializer guarantees for every particle of the system it
    returns. *)
Lemma createParticleSystem_spec cfg count size opacity isAura g :
  unit_draws (draws g) ->
  let geo := geometry (fst (createParticleSystem cfg count size opacity isAura g)) in
  well_formed count geo /\
  forall i, (i < count)%nat ->
    particle (velocity geo) i = (0, 0, 0) /\
    in_box (particle (position geo) i) /\
    (isAura = false ->
       color_class cfg (vx (particle (target geo) i)) (vy (particle (target geo) i))
                   (particle_color (color geo) i)).
Proof.
  intros Hd. cbv zeta.
  pose (Inv := fun (k : nat) (b : Buffers) (g' : Rng) =>
    (length (posArray b) = (count * 3)%nat /\ length (targetArray b) = (count * 3)%nat /\
     length (colArray b) = (count * 3)%nat /\ length (velArray b) = (count * 3)%nat) /\
    draws g' = draws g /\
    forall j, (j < k)%nat ->
      particle (velArray b) j = (0, 0, 0) /\
      in_box (particle (posArray b) j) /\
      (isAura = false ->
         color_class cfg (vx (particle (targetArray b) j)) (vy (particle (targetArray b) j))
                     (particle_color (colArray b) j))).
  set (b0 := {| posArray := F32.alloc (count * 3); targetArray := F32.alloc (count * 3);
                colArray := F32.alloc (count * 3); velArray := F32.alloc (count * 3) |}).
  assert (H : Inv (0 + count)%nat (fst (for_loop (createBody cfg isAura) 0 count b0 g))
                                  (snd (for_loop (createBody cfg isAura) 0 count b0 g))).
  { apply for_loop_inv.
    - intros j b g' Hj ((Lp & Lt & Lc & Lv) & Hg & Hgood).
      assert (Hd' : unit_draws (draws g')) by (rewrite Hg; exact Hd).
      destruct (createBody_spec cfg isAura j b g' Hd') as
        ((Lp' & Lt' & Lc' & Lv') & Hg' & Hvel & Hbox & Htgt & Hcol & Hother); try lia.
      cbv zeta in *. unfold Inv.
      split; [repeat split; congruence|]. split; [congruence|].
      intros k Hk. destruct (Nat.eq_dec k j) as [->|Hkj].
      + split; [exact Hvel|]. split; [exact Hbox|].
        intros ->. rewrite Hcol, Htgt. apply colorLogic_class.
        rewrite scatter_draws. exact Hd'.
      + destruct (Hother k Hkj) as (-> & -> & -> & ->). apply Hgood. lia.
    - unfold Inv, b0. cbn [posArray targetArray colArray velArray].
      rewrite !alloc_length. repeat split; auto; lia. }
  cbn [Nat.add] in H. unfold createParticleSystem, bind, ret. fold b0.
  destruct (for_loop (createBody cfg isAura) 0 count b0 g) as [b g'].
  cbn [fst snd geometry position target color velocity] in *.
  destruct H as ((Lp & Lt & Lc & Lv) & _ & Hgood).
  split; [repeat split; assumption|]. exact Hgood.
Qed.

(** C4. After [createParticleSystem] with any count, for every draw of the
    random source, every particle has velocity exactly (0, 0, 0) and a
    position within [-150, 150] on each of the three axes. *)
Theorem initial_velocity_and_position (cfg : Config) (count : nat) (size opacity : R)
    (isAura : bool) (g : Rng) (i : nat) :
  unit_draws (draws g) -> (i < count)%nat ->
  let geo := geometry (fst (createParticleSystem cfg count size opacity isAura g)) in
  particle (velocity geo) i = (0, 0, 0) /\
  -150 <= vx (particle (position geo) i) <= 150 /\
  -150 <= vy (particle (position geo) i) <= 150 /\
  -150 <= vz (particle (position geo) i) <= 150.
Proof.
  intros Hd Hi. cbv zeta.
  destruct (createParticleSystem_spec cfg count size opacity isAura g Hd) as [_ H].
  cbv zeta in H. destruct (H i Hi) as (Hv & Hbox & _). split; [exact Hv | exact Hbox].
Qed.

Lemma initial_velocity_and_position_witness :
  unit_draws half_draws /\ (1 < 2)%nat /\
  particle (velocity (geometry (fst (createParticleSystem CONFIG 2 0.4 0.9 false
                                       {| draws := half_draws; next := 0 |})))) 1 = (0, 0, 0).
Proof.
  assert (L : (1 < 2)%nat) by lia.
  split; [exact half_draws_unit|]. split; [exact L|].
  exact (proj1 (initial_velocity_and_position CONFIG 2 0.4 0.9 false
                  {| draws := half_draws; next := 0 |} 1 half_draws_unit L)).
Defined.

(** C3, as the code has it.  The colour of every main particle is
    classified by its target (tx, ty), the curve point scaled and jittered:
    if |tx| < 2 and ty > 0 it is the inner colour blended 70/30 toward
    white; else if sqrt(tx^2 + ty^2) > 14 it is the core colour blended
    toward the outer colour by a fraction in [0, 1); else it is the core
    colour scaled by a brightness factor in [0.8, 1.2]. *)
Theorem color_classified_by_target (cfg : Config) (count : nat) (size opacity : R)
    (g : Rng) (i : nat) :
  unit_draws (draws g) -> (i < count)%nat ->
  let geo := geometry (fst (createParticleSystem cfg count size opacity false g)) in
  let t := particle (target geo) i in
  color_class cfg (vx t) (vy t) (particle_color (color geo) i).
Proof.
  intros Hd Hi. cbv zeta.
  destruct (createParticleSystem_spec cfg count size opacity false g Hd) as [_ H].
  cbv zeta in H. destruct (H i Hi) as (_ & _ & Hc). apply Hc. reflexivity.
Qed.

Lemma color_classified_by_target_witness :
  unit_draws half_draws /\ (0 < 1)%nat /\
  let geo := geometry (fst (createParticleSystem CONFIG 1 0.4 0.9 false
                              {| draws := half_draws; next := 0 |})) in
  color_class CONFIG (vx (particle (target geo) 0)) (vy (particle (target geo) 0))
              (particle_color (color geo) 0).
Proof.
  assert (L : (0 < 1)%nat) by lia.
  split; [exact half_draws_unit|]. split; [exact L|].
  exact (color_classified_by_target CONFIG 1 0.4 0.9
           {| draws := half_draws; next := 0 |} 0 half_draws_unit L).
Defined.

Lemma gtb_false (x y : R) : x <= y -> gtb x y = false.
Proof. intros H. unfold gtb. destruct (Rgt_dec x y); [lra | reflexivity]. Qed.

Lemma gtb_true (x y : R) : x > y -> gtb x y = true.
Proof. intros H. unfold gtb. destruct (Rgt_dec x y); [reflexivity | lra]. Qed.

Lemma sqrt_le_bound (x k : R) : 0 <= k -> x <= k * k -> sqrt x <= k.
Proof.
  intros Hk Hx. rewrite <- (sqrt_square k Hk). apply sqrt_le_1_alt. exact Hx.
Qed.

Lemma sqrt_gt_bound (x k : R) : 0 <= k -> k * k < x -> sqrt x > k.
Proof.
  intros Hk Hx. rewrite <- (sqrt_square k Hk). apply sqrt_lt_1_alt. nra.
Qed.

(** The colour of a main particle whose target lies on or below the x axis
    and within distance 14 of the origin. *)
Lemma colorLogic_body cfg tx ty g :
  ty <= 0 -> tx * tx + ty * ty <= 14 * 14 ->
  fst (colorLogic cfg false tx ty g) =
    multiplyScalar (core (colors cfg)) (0.8 + draws g (next g) * 0.4).
Proof.
  intros Hy Hd. unfold colorLogic.
  rewrite (gtb_false ty 0 Hy), andb_false_r.
  rewrite gtb_false by (apply sqrt_le_bound; lra).
  reflexivity.
Qed.

Lemma scatter_tip :
  scatter false {| draws := tip_draws; next := 0 |} =
    ({| px := 0; py := -17 |},
     (0 * (0.8 + 0 ^ 3 * 0.2) + (0.5 - 0.5) * 1.5,
      -17 * (0.8 + 0 ^ 3 * 0.2) + (0.5 - 0.5) * 1.5,
      (0.5 - 0.5) * 5),
     {| draws := tip_draws; next := 5 |}).
Proof.
  unfold scatter, bind, random, ret. cbn [draws next].
  unfold tip_draws. cbv beta iota.
  replace (0.5 * PI * 2) with PI by lra.
  rewrite getHeartPoint_PI. unfold Math_pow. cbn [px py]. reflexivity.
Qed.

Lemma tip_draws_unit : unit_draws tip_draws.
Proof.
  intros k. unfold tip_draws.
  destruct k as [|[|[|[|[|[|k]]]]]]; lra.
Qed.

(** C3 as stated fails.  With the draws of [tip_draws] the curve point of
    the one particle is (0, -17), the bottom tip, at distance 17 from the
    origin: classified on the curve point its colour would be the core
    colour blended toward the outer colour.  Its target is (0, -13.6),
    within distance 14, and the code gives it the core colour scaled by
    0.8. *)
Lemma color_not_classified_by_curve_point :
  let g := {| draws := tip_draws; next := 0 |} in
  let p := fst (fst (scatter false g)) in
  let geo := geometry (fst (createParticleSystem CONFIG 1 0.4 0.9 false g)) in
  unit_draws tip_draws /\
  p = {| px := 0; py := -17 |} /\
  particle_color (color geo) 0 = multiplyScalar (core (colors CONFIG)) 0.8 /\
  ~ color_class CONFIG (px p) (py p) (particle_color (color geo) 0).
Proof.
  cbv zeta.
  assert (Hc : particle_color
      (color (geometry (fst (createParticleSystem CONFIG 1 0.4 0.9 false
                               {| draws := tip_draws; next := 0 |})))) 0
    = multiplyScalar (core (colors CONFIG)) 0.8).
  { unfold createParticleSystem, bind, ret. cbn [for_loop]. unfold bind, ret.
    destruct (createBody_spec CONFIG false 0
                {| posArray := F32.alloc (1 * 3); targetArray := F32.alloc (1 * 3);
                   colArray := F32.alloc (1 * 3); velArray := F32.alloc (1 * 3) |}
                {| draws := tip_draws; next := 0 |} tip_draws_unit)
      as (_ & _ & _ & _ & _ & Hcol & _);
      cbn [posArray targetArray colArray velArray]; rewrite ?alloc_length; try lia.
    cbv zeta in Hcol. rewrite scatter_tip in Hcol. cbn [fst snd vx vy] in Hcol.
    rewrite colorLogic_body in Hcol by lra.
    cbn [draws next] in Hcol. unfold tip_draws in Hcol.
    replace (0.8 + 0 * 0.4) with 0.8 in Hcol by lra.
    destruct (createBody _ _ _ _ _) as [b' g']. cbn [fst snd geometry color] in *.
    exact Hcol. }
  split; [exact tip_draws_unit|].
  rewrite scatter_tip. cbn [fst snd px py]. split; [reflexivity|]. split; [exact Hc|].
  rewrite Hc. unfold color_class.
  rewrite (gtb_false (-17) 0) by lra. rewrite andb_false_r.
  rewrite gtb_true by (apply sqrt_gt_bound; lra).
  intros (f & _ & Hf). apply (f_equal cr) in Hf. cbn in Hf. lra.
Qed.

(** * Further properties of the code *)

(** ** The initializer, continued *)

(** Whatever holds of the scattered target and the colour computed from it,
    for every state of the random source, holds of every particle of the
    system that the initializer returns. *)
Lemma createParticleSystem_each cfg count size opacity isAura g (P : Vec3 -> Color -> Prop) :
  unit_draws (draws g) ->
  (forall g', unit_draws (draws g') ->
     let sc := scatter isAura g' in
     let t := snd (fst sc) in
     P t (fst (colorLogic cfg isAura (vx t) (vy t) (snd sc)))) ->
  let geo := geometry (fst (createParticleSystem cfg count size opacity isAura g)) in
  forall i, (i < count)%nat -> P (particle (target geo) i) (particle_color (color geo) i).
Proof.
  intros Hd HP. cbv zeta.
  pose (Inv := fun (k : nat) (b : Buffers) (g' : Rng) =>
    (length (posArray b) = (count * 3)%nat /\ length (targetArray b) = (count * 3)%nat /\
     length (colArray b) = (count * 3)%nat /\ length (velArray b) = (count * 3)%nat) /\
    draws g' = draws g /\
    forall j, (j < k)%nat -> P (particle (targetArray b) j) (particle_color (colArray b) j)).
  set (b0 := {| posArray := F32.alloc (count * 3); targetArray := F32.alloc (count * 3);
                colArray := F32.alloc (count * 3); velArray := F32.alloc (count * 3) |}).
  assert (H : Inv (0 + count)%nat (fst (for_loop (createBody cfg isAura) 0 count b0 g))
                                  (snd (for_loop (createBody cfg isAura) 0 count b0 g))).
  { apply for_loop_inv.
    - intros j b g' Hj ((Lp & Lt & Lc & Lv) & Hg & Hgood).
      assert (Hd' : unit_draws (draws g')) by (rewrite Hg; exact Hd).
      destruct (createBody_spec cfg isAura j b g' Hd') as
        ((Lp' & Lt' & Lc' & Lv') & Hg' & _ & _ & Htgt & Hcol & Hother); try lia.
      cbv zeta in *. unfold Inv.
      split; [repeat split; congruence|]. split; [congruence|].
      intros k Hk. destruct (Nat.eq_dec k j) as [->|Hkj].
      + rewrite Hcol, Htgt. apply (HP g' Hd').
      + destruct (Hother k Hkj) as (_ & -> & -> & _). apply Hgood. lia.
    - unfold Inv, b0. cbn [posArray targetArray colArray velArray].
      rewrite !alloc_length. repeat split; auto; lia. }
  cbn [Nat.add] in H. unfold createParticleSystem, bind, ret. fold b0.
  destruct (for_loop (createBody cfg isAura) 0 count b0 g) as [b g'].
  cbn [fst snd geometry position target color velocity] in *.
  destruct H as (_ & _ & Hgood). exact Hgood.
Qed.

Lemma createBody_lengths cfg isAura i b g :
  let b' := fst (createBody cfg isAura i b g) in
  length (posArray b') = length (posArray b) /\
  length (targetArray b') = length (targetArray b) /\
  length (colArray b') = length (colArray b) /\
  length (velArray b') = length (velArray b).
Proof.
  cbv zeta. unfold createBody, bind.
  destruct (scatter isAura g) as [[p [[tx ty] tz]] g1]. cbn [fst snd].
  destruct (colorLogic cfg isAura tx ty g1) as [c g2].
  unfold random, ret. cbn [fst posArray targetArray colArray velArray].
  f32. auto.
Qed.

Lemma created_well_formed cfg count size opacity isAura g :
  well_formed count (geometry (fst (createParticleSystem cfg count size opacity isAura g))).
Proof.
  pose (Inv := fun (k : nat) (b : Buffers) (g' : Rng) =>
    length (posArray b) = (count * 3)%nat /\ length (targetArray b) = (count * 3)%nat /\
    length (colArray b) = (count * 3)%nat /\ length (velArray b) = (count * 3)%nat).
  set (b0 := {| posArray := F32.alloc (count * 3); targetArray := F32.alloc (count * 3);
                colArray := F32.alloc (count * 3); velArray := F32.alloc (count * 3) |}).
  assert (H : Inv (0 + count)%nat (fst (for_loop (createBody cfg isAura) 0 count b0 g))
                                  (snd (for_loop (createBody cfg isAura) 0 count b0 g))).
  { apply for_loop_inv.
    - intros j b g' _ (Lp & Lt & Lc & Lv).
      destruct (createBody_lengths cfg isAura j b g') as (Lp' & Lt' & Lc' & Lv').
      unfold Inv. repeat split; congruence.
    - unfold Inv, b0. cbn [posArray targetArray colArray velArray].
      rewrite !alloc_length. auto. }
  unfold createParticleSystem, bind, ret. fold b0.
  destruct (for_loop (createBody cfg isAura) 0 count b0 g) as [b g'].
  cbn [fst snd geometry] in *. exact H.
Qed.

(** The initializer returns four buffers of three entries per particle,
    for every count, also zero, and every random source. *)
Theorem createParticleSystem_well_formed (cfg : Config) (count : nat) (size opacity : R)
    (isAura : bool) (g : Rng) :
  let geo := geometry (fst (createParticleSystem cfg count size opacity isAura g)) in
  length (position geo) = (count * 3)%nat /\
  length (target geo) = (count * 3)%nat /\
  length (color geo) = (count * 3)%nat /\
  length (velocity geo) = (count * 3)%nat.
Proof.
  exact (created_well_formed cfg count size opacity isAura g).
Qed.

Lemma scatter_scattered isAura g :
  unit_draws (draws g) -> scattered isAura (snd (fst (scatter isAura g))).
Proof.
  intros Hd. pose proof PI_RGT_0 as Hpi.
  pose proof (Hd (next g)) as H0.
  pose proof (Hd (S (next g))) as H1.
  pose proof (Hd (S (S (next g)))) as H2.
  pose proof (Hd (S (S (S (next g))))) as H3.
  pose proof (Hd (S (S (S (S (next g)))))) as H4.
  pose proof (Hd (S (S (S (S (S (next g))))))) as H5.
  unfold scattered, scatter, bind, random, ret.
  destruct isAura; cbn [fst snd draws next vx vy vz scale_lo scale_hi jitter_xy jitter_z].
  - exists (draws g (next g) * PI * 2), (1.0 + draws g (S (S (next g))) * 0.4).
    split; [nra|]. split; [lra|].
    repeat split; apply Rabs_le; lra.
  - exists (draws g (next g) * PI * 2), (0.8 + Math_pow (draws g (S (next g))) 3 * 0.2).
    split; [nra|].
    assert (Hc : 0 <= Math_pow (draws g (S (next g))) 3 <= 1).
    { unfold Math_pow. set (r := draws g (S (next g))) in *.
      assert (0 <= r * r <= 1) by nra. simpl. nra. }
    split; [lra|].
    repeat split; apply Rabs_le; lra.
Qed.

Lemma created_target_scattered cfg count size opacity isAura g i :
  unit_draws (draws g) -> (i < count)%nat ->
  scattered isAura
    (particle (target (geometry (fst (createParticleSystem cfg count size opacity isAura g)))) i).
Proof.
  intros Hd Hi.
  apply (createParticleSystem_each cfg count size opacity isAura g
           (fun t _ => scattered isAura t) Hd); auto.
  intros g' Hd'. cbv zeta. apply scatter_scattered. exact Hd'.
Qed.

(** Every target of a created system is a point of the heart curve, for a
    parameter in [0, 2 PI), scaled by a factor in [0.8, 1] (main) or
    [1, 1.4] (aura) and moved by a jitter of at most 0.75 (main) or 2
    (aura) on x and y; its z is a jitter of at most 2.5 (main) or 6
    (aura). *)
Theorem targets_are_scattered (cfg : Config) (count : nat) (size opacity : R)
    (isAura : bool) (g : Rng) (i : nat) :
  unit_draws (draws g) -> (i < count)%nat ->
  let t := particle (target (geometry
             (fst (createParticleSystem cfg count size opacity isAura g)))) i in
  exists u scale,
    0 <= u < 2 * PI /\
    (if isAura then 1 else 0.8) <= scale <= (if isAura then 1.4 else 1) /\
    Rabs (vx t - px (getHeartPoint u) * scale) <= (if isAura then 2 else 0.75) /\
    Rabs (vy t - py (getHeartPoint u) * scale) <= (if isAura then 2 else 0.75) /\
    Rabs (vz t) <= (if isAura then 6 else 2.5).
Proof.
  intros Hd Hi. exact (created_target_scattered cfg count size opacity isAura g i Hd Hi).
Qed.

Lemma targets_are_scattered_witness :
  unit_draws half_draws /\ (1 < 2)%nat /\
  scattered true
    (particle (target (geometry (fst (createParticleSystem CONFIG 2 1.2 0.3 true
                                        {| draws := half_draws; next := 0 |})))) 1).
Proof.
  assert (L : (1 < 2)%nat) by lia.
  split; [exact half_draws_unit|]. split; [exact L|].
  exact (targets_are_scattered CONFIG 2 1.2 0.3 true
           {| draws := half_draws; next := 0 |} 1 half_draws_unit L).
Defined.

Lemma Rabs_le_elim (a b : R) : Rabs a <= b -> - b <= a <= b.
Proof. unfold Rabs. destruct (Rcase_abs a); lra. Qed.

Lemma heart_y_lower (t : R) : -17 <= py (getHeartPoint t).
Proof.
  rewrite heart_y_poly.
  pose proof (COS_bound t) as [Hl Hu]. set (c := cos t) in *.
  assert (Hc2 : 0 <= c * c <= 1) by nra.
  assert (Hc3 : -1 <= c * c * c <= 1) by nra.
  replace (- 8 * (c * c * c * c) - 8 * (c * c * c) - 2 * (c * c) + 19 * c + 4)
    with ((c + 1) * (- 8 * (c * c * c) - 2 * c + 21) - 17) by ring.
  assert (0 <= (c + 1) * (- 8 * (c * c * c) - 2 * c + 21)); [|lra].
  apply Rmult_le_pos; lra.
Qed.

Lemma heart_x_bound (t : R) : -16 <= px (getHeartPoint t) <= 16.
Proof.
  unfold getHeartPoint, Math_pow. cbn [px].
  pose proof (SIN_bound t) as [Hl Hu]. set (s := sin t) in *.
  assert (0 <= s * s <= 1) by nra. simpl. split; nra.
Qed.

(** The box that holds every target: for the main system |x| <= 16.75,
    -17.75 <= y <= 12.75 and |z| <= 2.5; for the aura |x| <= 24.4,
    -25.8 <= y <= 18.8 and |z| <= 6. *)
Theorem targets_in_box (cfg : Config) (count : nat) (size opacity : R)
    (isAura : bool) (g : Rng) (i : nat) :
  unit_draws (draws g) -> (i < count)%nat ->
  let t := particle (target (geometry
             (fst (createParticleSystem cfg count size opacity isAura g)))) i in
  Rabs (vx t) <= (if isAura then 24.4 else 16.75) /\
  (if isAura then -25.8 else -17.75) <= vy t <= (if isAura then 18.8 else 12.75) /\
  Rabs (vz t) <= (if isAura then 6 else 2.5).
Proof.
  intros Hd Hi. cbv zeta.
  destruct (created_target_scattered cfg count size opacity isAura g i Hd Hi)
    as (u & sc & _ & Hsc & Hx & Hy & Hz).
  pose proof (heart_x_bound u) as Hpx.
  pose proof (heart_y_lower u) as Hlo.
  pose proof (heart_y_upper u) as Hup.
  apply Rabs_le_elim in Hx. apply Rabs_le_elim in Hy.
  set (X := px (getHeartPoint u)) in *. set (Y := py (getHeartPoint u)) in *.
  destruct isAura; cbn [scale_lo scale_hi jitter_xy jitter_z] in *.
  - split; [apply Rabs_le; split; nra|]. split; [split; nra | exact Hz].
  - split; [apply Rabs_le; split; nra|]. split; [split; nra | exact Hz].
Qed.

Lemma targets_in_box_witness :
  unit_draws half_draws /\ (0 < 1)%nat /\
  Rabs (vx (particle (target (geometry (fst (createParticleSystem CONFIG 1 0.4 0.9 false
                                              {| draws := half_draws; next := 0 |})))) 0))
    <= 16.75.
Proof.
  assert (L : (0 < 1)%nat) by lia.
  split; [exact half_draws_unit|]. split; [exact L|].
  exact (proj1 (targets_in_box CONFIG 1 0.4 0.9 false
                  {| draws := half_draws; next := 0 |} 0 half_draws_unit L)).
Defined.

(** The colour of every aura particle is the aura colour blended toward the
    inner colour by a fraction in [0, 0.5): each channel lies on the first
    half of the way from the aura colour to the inner colour. *)
Theorem aura_color_blend (cfg : Config) (count : nat) (size opacity : R)
    (g : Rng) (i : nat) :
  unit_draws (draws g) -> (i < count)%nat ->
  let geo := geometry (fst (createParticleSystem cfg count size opacity true g)) in
  exists a, 0 <= a < 0.5 /\
    particle_color (color geo) i = lerp (aura (colors cfg)) (inner (colors cfg)) a.
Proof.
  intros Hd Hi. cbv zeta.
  apply (createParticleSystem_each cfg count size opacity true g
           (fun _ c => exists a, 0 <= a < 0.5 /\
              c = lerp (aura (colors cfg)) (inner (colors cfg)) a) Hd); auto.
  intros g' Hd'. cbv zeta. unfold colorLogic, bind, random, ret. cbn [fst].
  set (g1 := snd (scatter true g')).
  assert (Hg1 : draws g1 = draws g') by apply scatter_draws.
  exists (draws g1 (next g1) * 0.5). split; [|reflexivity].
  pose proof (Hd' (next g1)) as H. rewrite <- Hg1 in H. lra.
Qed.

Lemma aura_color_blend_witness :
  unit_draws half_draws /\ (0 < 1)%nat /\
  exists a, 0 <= a < 0.5 /\
    particle_color (color (geometry (fst (createParticleSystem CONFIG 1 1.2 0.3 true
                                            {| draws := half_draws; next := 0 |})))) 0
    = lerp (aura (colors CONFIG)) (inner (colors CONFIG)) a.
Proof.
  assert (L : (0 < 1)%nat) by lia.
  split; [exact half_draws_unit|]. split; [exact L|].
  exact (aura_color_blend CONFIG 1 1.2 0.3
           {| draws := half_draws; next := 0 |} 0 half_draws_unit L).
Defined.

Lemma scatter_next isAura g :
  next (snd (scatter isAura g)) = (next g + (if isAura then 6 else 5))%nat.
Proof.
  unfold scatter, bind, random, ret. destruct isAura; cbn [snd next]; lia.
Qed.

Lemma colorLogic_next cfg (isAura : bool) tx ty g :
  next (snd (colorLogic cfg isAura tx ty g)) =
    (next g + (if isAura then 1
               else if ltb (Rabs tx) 2 && gtb ty 0 then 0 else 1))%nat.
Proof.
  unfold colorLogic, bind, random, ret. destruct isAura; [cbn; lia|].
  destruct (ltb (Rabs tx) 2 && gtb ty 0); [cbn; lia|].
  destruct (gtb _ 14); cbn; lia.
Qed.

(** What one pass of the loop of the initializer takes from the random
    source: ten draws for an aura particle; for a main particle eight when
    its target is in the top central dip (|tx| < 2 and ty > 0), whose
    colour has no random part, and nine otherwise.  The stream itself is
    left as it is. *)
Theorem loop_pass_draws (cfg : Config) (isAura : bool) (i : nat) (b : Buffers) (g : Rng) :
  let g' := snd (createBody cfg isAura i b g) in
  let t := snd (fst (scatter isAura g)) in
  draws g' = draws g /\
  next g' =
    (next g + (if isAura then 10
               else if ltb (Rabs (vx t)) 2 && gtb (vy t) 0 then 8 else 9))%nat.
Proof.
  cbv zeta. unfold createBody, bind.
  pose proof (scatter_next isAura g) as Hs.
  pose proof (scatter_draws isAura g) as Hsd.
  destruct (scatter isAura g) as [[p [[tx ty] tz]] g1]. cbn [fst snd vx vy] in *.
  pose proof (colorLogic_next cfg isAura tx ty g1) as Hc.
  pose proof (colorLogic_draws cfg isAura tx ty g1) as Hcd.
  destruct (colorLogic cfg isAura tx ty g1) as [c g2]. cbn [fst snd] in *.
  unfold random, ret. cbn [snd next draws].
  split; [congruence|].
  destruct isAura; [lia|]. destruct (ltb (Rabs tx) 2 && gtb ty 0); lia.
Qed.

(** ** The impulse, continued *)

(** [explode] keeps the shape of a system of [n] particles, takes exactly
    [n] draws from the random source, one for each particle, and leaves the
    stream as it is. *)
Theorem explode_shape_and_draws (cfg : Config) (geo : Geometry) (g : Rng) (n : nat) :
  well_formed n geo ->
  well_formed n (fst (explode cfg geo g)) /\
  draws (snd (explode cfg geo g)) = draws g /\
  next (snd (explode cfg geo g)) = (next g + n)%nat.
Proof.
  intros Hwf.
  destruct (explode_spec cfg geo g n Hwf) as (_ & _ & _ & Hw & Hd & Hn & _).
  auto.
Qed.

Lemma explode_shape_and_draws_witness :
  well_formed 2 (geometry moving_system) /\
  next (snd (explode CONFIG (geometry moving_system) {| draws := half_draws; next := 7 |}))
    = (7 + 2)%nat.
Proof.
  assert (W : well_formed 2 (geometry moving_system)) by (repeat split; reflexivity).
  split; [exact W|].
  exact (proj2 (proj2 (explode_shape_and_draws CONFIG (geometry moving_system)
                         {| draws := half_draws; next := 7 |} 2 W))).
Defined.




Lemma direction_unit_position (p : Vec3) : magnitude p = 1 -> direction p = p.
Proof.
  intros Hm.
  assert (Hp : p <> (0, 0, 0)).
  { intros ->. unfold magnitude, dot in Hm. cbn [vx vy vz fst snd] in Hm.
    replace (0 * 0 + 0 * 0 + 0 * 0) with 0 in Hm by ring. rewrite sqrt_0 in Hm. lra. }
  unfold direction. rewrite (explode_len_magnitude p Hp), Hm.
  destruct p as [[x y] z]. cbn [vx vy vz fst snd]. f_equal; [f_equal|]; field.
Qed.

(** With [explosionForce] set to 0 the impulse does not depend on the
    random source: every particle receives the unit direction of its
    position, and a particle at distance 1 from the origin receives its
    position. *)
Theorem impulse_without_force (cfg : Config) (geo : Geometry) (g : Rng) (n i : nat) :
  well_formed n geo -> (i < n)%nat ->
  explosionForce cfg = 0 ->
  let p := particle (position geo) i in
  let v := particle (velocity geo) i in
  let v1 := particle (velocity (fst (explode cfg geo g))) i in
  v1 = vadd v (direction p) /\
  (magnitude p = 1 -> v1 = vadd v p).
Proof.
  intros Hwf Hi HE. cbv zeta.
  destruct (explode_spec cfg geo g n Hwf) as (_ & _ & _ & _ & _ & _ & Hv).
  cbv zeta in Hv. rewrite (Hv i Hi).
  assert (Hf : force cfg (draws g (next g + i)) = 1) by (unfold force; rewrite HE; lra).
  rewrite Hf, vscale_1. split; [reflexivity|].
  intros Hm. rewrite (direction_unit_position _ Hm). reflexivity.
Qed.

Lemma impulse_without_force_witness :
  well_formed 4 (geometry compass_system) /\ (2 < 4)%nat /\
  explosionForce calm_config = 0 /\
  particle (velocity (fst (explode calm_config (geometry compass_system)
                             {| draws := half_draws; next := 0 |}))) 2 =
    vadd (particle (velocity (geometry compass_system)) 2)
         (direction (particle (position (geometry compass_system)) 2)).
Proof.
  assert (W : well_formed 4 (geometry compass_system)) by (repeat split; reflexivity).
  assert (L : (2 < 4)%nat) by lia.
  assert (E : explosionForce calm_config = 0) by reflexivity.
  split; [exact W|]. split; [exact L|]. split; [exact E|].
  exact (proj1 (impulse_without_force calm_config (geometry compass_system)
                  {| draws := half_draws; next := 0 |} 4 2 W L E)).
Defined.

(** ** The pointer press on the scene *)

Lemma explodeSystem_spec cfg s g n :
  well_formed n (geometry s) ->
  let r := explodeSystem cfg s g in
  position (geometry (fst r)) = position (geometry s) /\
  well_formed n (geometry (fst r)) /\
  material (fst r) = material s /\ rotation_y (fst r) = rotation_y s /\
  draws (snd r) = draws g /\ next (snd r) = (next g + n)%nat /\
  forall i, (i < n)%nat ->
    particle (velocity (geometry (fst r))) i =
      vadd (particle (velocity (geometry s)) i)
           (vscale (force cfg (draws g (next g + i)))
                   (direction (particle (position (geometry s)) i))).
Proof.
  intros Hwf. cbv zeta. unfold explodeSystem, bind, ret.
  pose proof (explode_spec cfg (geometry s) g n Hwf) as H. cbv zeta in H.
  destruct (explode cfg (geometry s) g) as [geo g']. cbn [fst snd geometry material rotation_y] in *.
  destruct H as (Hp & _ & _ & Hw & Hd & Hn & Hv). repeat split; auto; apply Hw.
Qed.

(** One pointer press explodes the main system and then the aura: the main
    particles receive the next [n] draws in order, the aura particles the
    [m] draws after those, every position is left as it is, and the source
    has handed out [n + m] draws. *)
Theorem pointerdown_order (cfg : Config) (w : World) (g : Rng) (n m : nat) :
  well_formed n (geometry (mainHeart w)) ->
  well_formed m (geometry (auraHeart w)) ->
  let w' := fst (pointerdown cfg w g) in
  position (geometry (mainHeart w')) = position (geometry (mainHeart w)) /\
  position (geometry (auraHeart w')) = position (geometry (auraHeart w)) /\
  next (snd (pointerdown cfg w g)) = (next g + n + m)%nat /\
  (forall i, (i < n)%nat ->
     particle (velocity (geometry (mainHeart w'))) i =
       vadd (particle (velocity (geometry (mainHeart w))) i)
            (vscale (force cfg (draws g (next g + i)))
                    (direction (particle (position (geometry (mainHeart w))) i)))) /\
  (forall j, (j < m)%nat ->
     particle (velocity (geometry (auraHeart w'))) j =
       vadd (particle (velocity (geometry (auraHeart w))) j)
            (vscale (force cfg (draws g (next g + n + j)))
                    (direction (particle (position (geometry (auraHeart w))) j)))).
Proof.
  intros Hm Ha. cbv zeta. unfold pointerdown, bind, ret.
  pose proof (explodeSystem_spec cfg (mainHeart w) g n Hm) as H1. cbv zeta in H1.
  destruct (explodeSystem cfg (mainHeart w) g) as [s1 g1]. cbn [fst snd] in H1.
  destruct H1 as (Hp1 & _ & _ & _ & Hd1 & Hn1 & Hv1).
  pose proof (explodeSystem_spec cfg (auraHeart w) g1 m Ha) as H2. cbv zeta in H2.
  destruct (explodeSystem cfg (auraHeart w) g1) as [s2 g2]. cbn [fst snd] in H2.
  destruct H2 as (Hp2 & _ & _ & _ & Hd2 & Hn2 & Hv2).
  cbn [fst snd mainHeart auraHeart].
  repeat split; auto; try lia.
  intros j Hj. rewrite (Hv2 j Hj), Hd1, Hn1. reflexivity.
Qed.

Lemma pointerdown_order_witness :
  well_formed 2 (geometry (mainHeart sample_world)) /\
  well_formed 1 (geometry (auraHeart sample_world)) /\
  next (snd (pointerdown CONFIG sample_world {| draws := half_draws; next := 0 |}))
    = (0 + 2 + 1)%nat.
Proof.
  assert (W2 : well_formed 2 (geometry (mainHeart sample_world)))
    by (repeat split; reflexivity).
  assert (W1 : well_formed 1 (geometry (auraHeart sample_world)))
    by (repeat split; reflexivity).
  split; [exact W2|]. split; [exact W1|].
  exact (proj1 (proj2 (proj2 (pointerdown_order CONFIG sample_world
                                {| draws := half_draws; next := 0 |} 2 1 W2 W1)))).
Defined.

(** ** The shape of the scene *)

Lemma step_well_formed cfg op w g n m :
  well_formed n (geometry (mainHeart w)) ->
  well_formed m (geometry (auraHeart w)) ->
  well_formed n (geometry (mainHeart (fst (step cfg w op g)))) /\
  well_formed m (geometry (auraHeart (fst (step cfg w op g)))).
Proof.
  intros Hm Ha. destruct op as [time|]; cbn [step].
  - unfold ret, animate. cbn [fst mainHeart auraHeart].
    split; apply animateSystem_well_formed; auto.
  - unfold pointerdown, bind, ret.
    pose proof (explodeSystem_spec cfg (mainHeart w) g n Hm) as H1. cbv zeta in H1.
    destruct (explodeSystem cfg (mainHeart w) g) as [s1 g1]. cbn [fst snd] in H1.
    pose proof (explodeSystem_spec cfg (auraHeart w) g1 m Ha) as H2. cbv zeta in H2.
    destruct (explodeSystem cfg (auraHeart w) g1) as [s2 g2]. cbn [fst snd] in H2.
    cbn [fst mainHeart auraHeart]. split; [apply H1 | apply H2].
Qed.

Lemma run_well_formed cfg ops : forall w g n m,
  well_formed n (geometry (mainHeart w)) ->
  well_formed m (geometry (auraHeart w)) ->
  well_formed n (geometry (mainHeart (fst (run cfg ops w g)))) /\
  well_formed m (geometry (auraHeart (fst (run cfg ops w g)))).
Proof.
  induction ops as [|op ops IH]; intros w g n m Hm Ha; cbn [run].
  - unfold ret. cbn [fst]. auto.
  - unfold bind. pose proof (step_well_formed cfg op w g n m Hm Ha) as [H1 H2].
    destruct (step cfg w op g) as [w1 g1]. cbn [fst] in H1, H2. apply IH; auto.
Qed.

(** Through any sequence of frames and pointer presses both systems keep
    their shape: four buffers of three entries per particle, for the same
    number of particles as at the start.  No particle is added or
    removed. *)
Theorem run_keeps_shape (cfg : Config) (ops : list Op) (w : World) (g : Rng) (n m : nat) :
  well_formed n (geometry (mainHeart w)) ->
  well_formed m (geometry (auraHeart w)) ->
  well_formed n (geometry (mainHeart (fst (run cfg ops w g)))) /\
  well_formed m (geometry (auraHeart (fst (run cfg ops w g)))).
Proof.
  apply run_well_formed.
Qed.

Lemma run_keeps_shape_witness :
  well_formed 2 (geometry (mainHeart sample_world)) /\
  well_formed 1 (geometry (auraHeart sample_world)) /\
  well_formed 2 (geometry (mainHeart (fst (run CONFIG [Impulse; Tick 0; Tick 1; Impulse]
                                             sample_world
                                             {| draws := half_draws; next := 0 |})))).
Proof.
  assert (W2 : well_formed 2 (geometry (mainHeart sample_world)))
    by (repeat split; reflexivity).
  assert (W1 : well_formed 1 (geometry (auraHeart sample_world)))
    by (repeat split; reflexivity).
  split; [exact W2|]. split; [exact W1|].
  exact (proj1 (run_keeps_shape CONFIG [Impulse; Tick 0; Tick 1; Impulse] sample_world
                  {| draws := half_draws; next := 0 |} 2 1 W2 W1)).
Defined.

(** ** The integrator, continued *)

Lemma ticks_snoc cfg s times time :
  ticks cfg s (times ++ [time]) = animateSystem cfg (ticks cfg s times) time.
Proof. unfold ticks. rewrite fold_left_app. reflexivity. Qed.

Lemma animateSystem_material cfg s time :
  material (animateSystem cfg s time) = material s.
Proof. unfold animateSystem. destruct (fold_left _ _ _). reflexivity. Qed.

Lemma ticks_material cfg times : forall s, material (ticks cfg s times) = material s.
Proof.
  unfold ticks. induction times as [|t ts IH]; intros s; cbn [fold_left]; auto.
  rewrite IH. apply animateSystem_material.
Qed.

(** The sway of a system is not accumulated: after any sequence of frames
    the rotation angle is sin(0.2 time) * 0.15 for the time of the last
    frame alone, so it never leaves [-0.15, 0.15]; the position buffer is
    flagged for upload, and the material is the one the system was created
    with. *)
Theorem rotation_follows_last_frame (cfg : Config) (s : System) (times : list R) (time : R) :
  let s' := ticks cfg s (times ++ [time]) in
  rotation_y s' = sin (time * 0.2) * 0.15 /\
  Rabs (rotation_y s') <= 0.15 /\
  position_needsUpdate (geometry s') = true /\
  material s' = material s.
Proof.
  cbv zeta. rewrite ticks_snoc.
  assert (Hm : material (animateSystem cfg (ticks cfg s times) time) = material s)
    by (rewrite animateSystem_material; apply ticks_material).
  revert Hm. unfold animateSystem. destruct (fold_left _ _ _) as [ps vs].
  cbn [rotation_y geometry position_needsUpdate material]. intros Hm.
  split; [reflexivity|]. split; [|auto].
  pose proof (SIN_bound (time * 0.2)) as [Hl Hu].
  apply Rabs_le. split; nra.
Qed.

(** Particles do not interact: the new position and velocity of a particle
    are decided by its own position, velocity and target and by the time.
    Two particles with the same three vectors, in any two systems of any
    sizes, are at the same place with the same velocity after a frame at
    the same time. *)
Theorem particles_are_independent (cfg : Config) (s1 s2 : System) (time : R)
    (n1 n2 i j : nat) :
  well_formed n1 (geometry s1) -> well_formed n2 (geometry s2) ->
  (i < n1)%nat -> (j < n2)%nat ->
  particle (position (geometry s1)) i = particle (position (geometry s2)) j ->
  particle (velocity (geometry s1)) i = particle (velocity (geometry s2)) j ->
  particle (target (geometry s1)) i = particle (target (geometry s2)) j ->
  particle (position (geometry (animateSystem cfg s1 time))) i =
    particle (position (geometry (animateSystem cfg s2 time))) j /\
  particle (velocity (geometry (animateSystem cfg s1 time))) i =
    particle (velocity (geometry (animateSystem cfg s2 time))) j.
Proof.
  intros W1 W2 Hi Hj Hp Hv Ht.
  destruct (animateSystem_particle cfg s1 time n1 i W1 Hi) as [P1 V1].
  destruct (animateSystem_particle cfg s2 time n2 j W2 Hj) as [P2 V2].
  cbv zeta in *. rewrite P1, V1, P2, V2, Hp, Hv, Ht. auto.
Qed.

Lemma particles_are_independent_witness :
  well_formed 4 (geometry compass_system) /\ well_formed 1 (geometry lone_system) /\
  (0 < 4)%nat /\ (0 < 1)%nat /\
  particle (position (geometry compass_system)) 0 =
    particle (position (geometry lone_system)) 0 /\
  particle (position (geometry (animateSystem CONFIG compass_system 3))) 0 =
    particle (position (geometry (animateSystem CONFIG lone_system 3))) 0.
Proof.
  assert (W4 : well_formed 4 (geometry compass_system)) by (repeat split; reflexivity).
  assert (W1 : well_formed 1 (geometry lone_system)) by (repeat split; reflexivity).
  assert (L4 : (0 < 4)%nat) by lia.
  assert (L1 : (0 < 1)%nat) by lia.
  split; [exact W4|]. split; [exact W1|]. split; [exact L4|]. split; [exact L1|].
  split; [reflexivity|].
  exact (proj1 (particles_are_independent CONFIG compass_system lone_system 3 4 1 0 0
                  W4 W1 L4 L1 eq_refl eq_refl eq_refl)).
Defined.

(** ** Homing *)




(** One frame of a particle that has no velocity. *)
Lemma rest_frame cfg s time n i :
  well_formed n (geometry s) -> (i < n)%nat ->
  particle (velocity (geometry s)) i = (0, 0, 0) ->
  let s' := animateSystem cfg s time in
  let t := particle (target (geometry s)) i in
  particle (velocity (geometry s')) i = (0, 0, 0) /\
  particle (position (geometry s')) i =
    blend (particle (position (geometry s)) i) (breathing_target time t) (formationSpeed cfg).
Proof.
  intros Hwf Hi Hv. cbv zeta.
  destruct (animateSystem_particle cfg s time n i Hwf Hi) as [Hp Hv'].
  cbv zeta in Hp, Hv'. rewrite Hp, Hv', Hv. unfold integrator_step, homing, ltb.
  assert (Hz : vscale 0.94 (0, 0, 0) = (0, 0, 0)).
  { unfold vscale, vx, vy, vz. cbn [fst snd]. f_equal; [f_equal|]; ring. }
  rewrite Hz. unfold vx at 1. cbn [fst].
  destruct (Rlt_dec _ _) as [_|Hn]; [|exfalso; apply Hn; rewrite Rabs_R0; lra].
  cbn [fst snd]. split; [reflexivity|].
  unfold breathing_target, blend, vadd, vx, vy, vz. cbn [fst snd].
  f_equal; [f_equal|]; ring.
Qed.

Lemma breath_bound (time : R) (t : Vec3) : -0.5 <= breath time t <= 0.5.
Proof.
  unfold breath. pose proof (SIN_bound (time * 1.5 + vx t * 0.1)) as [Hl Hu]. lra.
Qed.

(** The state of a resting particle after any number of frames. *)
Lemma rest_frames cfg times : forall s n i,
  well_formed n (geometry s) -> (i < n)%nat ->
  0 <= formationSpeed cfg <= 1 ->
  particle (velocity (geometry s)) i = (0, 0, 0) ->
  let q := 1 - formationSpeed cfg in
  let k := length times in
  let p := particle (position (geometry s)) i in
  let t := particle (target (geometry s)) i in
  let s' := ticks cfg s times in
  let p' := particle (position (geometry s')) i in
  particle (velocity (geometry s')) i = (0, 0, 0) /\
  vx p' - vx t = q ^ k * (vx p - vx t) /\
  vy p' - vy t = q ^ k * (vy p - vy t) /\
  Rabs (vz p' - vz t) <= q ^ k * Rabs (vz p - vz t) + 0.5 * (1 - q ^ k).
Proof.
  induction times as [|time times IH]; intros s n i Hwf Hi Hf Hv; cbv zeta.
  - unfold ticks. cbn [fold_left length pow]. repeat split; auto; lra.
  - change (ticks cfg s (time :: times)) with (ticks cfg (animateSystem cfg s time) times).
    destruct (rest_frame cfg s time n i Hwf Hi Hv) as [Hv1 Hp1]. cbv zeta in Hv1, Hp1.
    pose proof (animateSystem_well_formed cfg s time n Hwf) as Hwf1.
    destruct (animateSystem_frame cfg s time) as [Ht1 _].
    destruct (IH (animateSystem cfg s time) n i Hwf1 Hi Hf Hv1) as (Hv' & Hx & Hy & Hz).
    cbv zeta in Hx, Hy, Hz. rewrite Ht1 in Hx, Hy, Hz. rewrite Hp1 in Hx, Hy, Hz.
    set (p := particle (position (geometry s)) i) in *.
    set (t := particle (target (geometry s)) i) in *.
    set (p' := particle (position (geometry (ticks cfg (animateSystem cfg s time) times))) i) in *.
    unfold blend, breathing_target in Hx, Hy, Hz. cbn [vx vy vz fst snd] in Hx, Hy, Hz.
    cbn [length pow]. set (q := 1 - formationSpeed cfg) in *.
    set (qk := q ^ length times) in *.
    split; [exact Hv'|]. split; [rewrite Hx; unfold q; ring|].
    split; [rewrite Hy; unfold q; ring|].
    pose proof (breath_bound time t) as Hb.
    assert (Hq : 0 <= q <= 1) by (unfold q; lra).
    assert (Hqk : 0 <= qk <= 1).
    { unfold qk. split; [apply pow_le; lra|].
      rewrite <- (pow1 (length times)). apply pow_incr. lra. }
    assert (H1 : Rabs (snd p + (snd t + breath time t - snd p) * formationSpeed cfg - snd t)
                   <= q * Rabs (snd p - snd t) + 0.5 * formationSpeed cfg).
    { replace (snd p + (snd t + breath time t - snd p) * formationSpeed cfg - snd t)
        with (q * (snd p - snd t) + formationSpeed cfg * breath time t) by (unfold q; ring).
      eapply Rle_trans; [apply Rabs_triang|].
      rewrite !Rabs_mult, (Rabs_pos_eq q), (Rabs_pos_eq (formationSpeed cfg)) by lra.
      assert (Rabs (breath time t) <= 0.5) by (apply Rabs_le; lra).
      nra. }
    unfold vz in *.
    replace (formationSpeed cfg) with (1 - q) in H1 at 2 by (unfold q; ring).
    apply (Rmult_le_compat_l qk) in H1; [|lra].
    eapply Rle_trans; [exact Hz|].
    eapply Rle_trans; [apply Rplus_le_compat_r; exact H1|].
    right. ring.
Qed.

Lemma shrunk_offset (k d : R) :
  0 <= k <= 1 -> Rabs (k * d) <= Rabs d /\ 0 <= k * d * d.
Proof.
  intros Hk. split.
  - rewrite Rabs_mult, (Rabs_pos_eq k) by lra. pose proof (Rabs_pos d). nra.
  - rewrite Rmult_assoc. apply Rmult_le_pos; [lra|]. apply Rle_0_sqr.
Qed.

(** A particle without velocity does not recede.  For a formation speed in
    [0, 1], after any number of frames at any times its velocity is still
    zero, and on x and on y it is on the side of its target it started on
    and no further from it than it started. *)
Theorem resting_particle_approaches (cfg : Config) (s : System) (times : list R) (n i : nat) :
  well_formed n (geometry s) -> (i < n)%nat ->
  0 <= formationSpeed cfg <= 1 ->
  particle (velocity (geometry s)) i = (0, 0, 0) ->
  let p := particle (position (geometry s)) i in
  let t := particle (target (geometry s)) i in
  let s' := ticks cfg s times in
  let p' := particle (position (geometry s')) i in
  particle (velocity (geometry s')) i = (0, 0, 0) /\
  Rabs (vx p' - vx t) <= Rabs (vx p - vx t) /\
  0 <= (vx p' - vx t) * (vx p - vx t) /\
  Rabs (vy p' - vy t) <= Rabs (vy p - vy t) /\
  0 <= (vy p' - vy t) * (vy p - vy t).
Proof.
  intros Hwf Hi Hf Hv. cbv zeta.
  destruct (rest_frames cfg times s n i Hwf Hi Hf Hv) as (Hv' & Hx & Hy & _).
  cbv zeta in Hx, Hy.
  set (q := 1 - formationSpeed cfg) in *.
  assert (Hqk : 0 <= q ^ length times <= 1).
  { split; [apply pow_le; unfold q; lra|].
    rewrite <- (pow1 (length times)). apply pow_incr. unfold q. lra. }
  set (qk := q ^ length times) in *.
  split; [exact Hv'|]. rewrite Hx, Hy.
  destruct (shrunk_offset qk (vx (particle (position (geometry s)) i) -
                              vx (particle (target (geometry s)) i)) Hqk) as [X1 X2].
  destruct (shrunk_offset qk (vy (particle (position (geometry s)) i) -
                              vy (particle (target (geometry s)) i)) Hqk) as [Y1 Y2].
  auto.
Qed.

Lemma resting_particle_approaches_witness :
  well_formed 1 (geometry rest_system) /\ (0 < 1)%nat /\
  0 <= formationSpeed CONFIG <= 1 /\
  particle (velocity (geometry rest_system)) 0 = (0, 0, 0) /\
  particle (velocity (geometry (ticks CONFIG rest_system [0; 1; 2]))) 0 = (0, 0, 0).
Proof.
  assert (W : well_formed 1 (geometry rest_system)) by (repeat split; reflexivity).
  assert (L : (0 < 1)%nat) by lia.
  assert (F : 0 <= formationSpeed CONFIG <= 1) by (cbn; lra).
  assert (V : particle (velocity (geometry rest_system)) 0 = (0, 0, 0)) by reflexivity.
  split; [exact W|]. split; [exact L|]. split; [exact F|]. split; [exact V|].
  exact (proj1 (resting_particle_approaches CONFIG rest_system [0; 1; 2] 1 0 W L F V)).
Defined.

(** A settled particle stays settled.  A particle without velocity that is
    at its target on x and y and within 0.5 of it on z keeps, through any
    number of frames at any times, zero velocity, the same x and y, and a z
    within 0.5 of the target: at rest only the breathing moves it. *)
Theorem settled_particle_stays (cfg : Config) (s : System) (times : list R) (n i : nat) :
  well_formed n (geometry s) -> (i < n)%nat ->
  0 <= formationSpeed cfg <= 1 ->
  let p := particle (position (geometry s)) i in
  let t := particle (target (geometry s)) i in
  particle (velocity (geometry s)) i = (0, 0, 0) ->
  vx p = vx t -> vy p = vy t -> Rabs (vz p - vz t) <= 0.5 ->
  let s' := ticks cfg s times in
  let p' := particle (position (geometry s')) i in
  particle (velocity (geometry s')) i = (0, 0, 0) /\
  vx p' = vx t /\ vy p' = vy t /\ Rabs (vz p' - vz t) <= 0.5.
Proof.
  intros Hwf Hi Hf. cbv zeta. intros Hv Hx0 Hy0 Hz0.
  destruct (rest_frames cfg times s n i Hwf Hi Hf Hv) as (Hv' & Hx & Hy & Hz).
  cbv zeta in Hx, Hy, Hz. rewrite Hx0 in Hx. rewrite Hy0 in Hy.
  set (q := 1 - formationSpeed cfg) in *.
  assert (Hqk : 0 <= q ^ length times <= 1).
  { split; [apply pow_le; unfold q; lra|].
    rewrite <- (pow1 (length times)). apply pow_incr. unfold q. lra. }
  split; [exact Hv'|]. split; [lra|]. split; [lra|].
  eapply Rle_trans; [exact Hz|]. nra.
Qed.

Lemma settled_particle_stays_witness :
  well_formed 4 (geometry settled_system) /\ (1 < 4)%nat /\
  0 <= formationSpeed CONFIG <= 1 /\
  particle (velocity (geometry settled_system)) 1 = (0, 0, 0) /\
  vx (particle (position (geometry settled_system)) 1) =
    vx (particle (target (geometry settled_system)) 1) /\
  vy (particle (position (geometry settled_system)) 1) =
    vy (particle (target (geometry settled_system)) 1) /\
  Rabs (vz (particle (position (geometry settled_system)) 1)
        - vz (particle (target (geometry settled_system)) 1)) <= 0.5 /\
  particle (velocity (geometry (ticks CONFIG settled_system [0; 1; 2]))) 1 = (0, 0, 0).
Proof.
  assert (W : well_formed 4 (geometry settled_system)) by (repeat split; reflexivity).
  assert (L : (1 < 4)%nat) by lia.
  assert (F : 0 <= formationSpeed CONFIG <= 1) by (cbn; lra).
  assert (V : particle (velocity (geometry settled_system)) 1 = (0, 0, 0)) by reflexivity.
  assert (X : vx (particle (position (geometry settled_system)) 1) =
              vx (particle (target (geometry settled_system)) 1)) by reflexivity.
  assert (Y : vy (particle (position (geometry settled_system)) 1) =
              vy (particle (target (geometry settled_system)) 1)) by reflexivity.
  assert (Z : Rabs (vz (particle (position (geometry settled_system)) 1)
                    - vz (particle (target (geometry settled_system)) 1)) <= 0.5).
  { cbv [vz snd particle F32.get nth Nat.mul Nat.add geometry position target
         settled_system compass_system].
    replace (0 - 0) with 0 by ring. rewrite Rabs_R0. lra. }
  split; [exact W|]. split; [exact L|]. split; [exact F|]. split; [exact V|].
  split; [exact X|]. split; [exact Y|]. split; [exact Z|].
  exact (proj1 (settled_particle_stays CONFIG settled_system [0; 1; 2] 4 1 W L F V X Y Z)).
Defined.

Lemma ticks_target cfg times : forall s,
  target (geometry (ticks cfg s times)) = target (geometry s).
Proof.
  unfold ticks. induction times as [|time times IH]; intros s; cbn [fold_left]; auto.
  rewrite IH. apply animateSystem_frame.
Qed.

(** Homing resumes.  After an impulse, or from any state, there is a number
    of frames after which every further frame homes, while no new impulse
    comes: the particle is moved by its velocity and then blended toward
    the breathing target of the frame by [formationSpeed]. *)
Theorem homing_resumes (cfg : Config) (s : System) (n i : nat) :
  well_formed n (geometry s) -> (i < n)%nat ->
  exists k, forall times time, (k <= length times)%nat ->
    let s1 := ticks cfg s times in
    let p1 := particle (position (geometry s1)) i in
    let v1 := particle (velocity (geometry s1)) i in
    let t := particle (target (geometry s)) i in
    Rabs (0.94 * vx v1) < 0.1 /\
    particle (position (geometry (animateSystem cfg s1 time))) i =
      blend (vadd p1 v1) (breathing_target time t) (formationSpeed cfg).
Proof.
  intros Hwf Hi.
  destruct (damping_vanishes (Rabs (vx (particle (velocity (geometry s)) i))) 0.1
              (Rabs_pos _) ltac:(lra)) as [k Hk].
  exists k. intros times time Hlen. cbv zeta.
  pose proof (ticks_well_formed cfg times s n Hwf) as Hwf1.
  assert (Hg : Rabs (0.94 * vx (particle (velocity (geometry (ticks cfg s times))) i)) < 0.1).
  { rewrite (ticks_velocity cfg times s n i Hwf Hi).
    unfold vscale at 1. unfold vx at 1. cbn [fst].
    assert (Hq : 0 <= 0.94 ^ length times) by (apply pow_le; lra).
    rewrite !Rabs_mult, (Rabs_pos_eq 0.94), (Rabs_pos_eq _ Hq) by lra.
    specialize (Hk (length times) Hlen).
    pose proof (Rabs_pos (vx (particle (velocity (geometry s)) i))).
    nra. }
  split; [exact Hg|].
  destruct (animateSystem_particle cfg (ticks cfg s times) time n i Hwf1 Hi) as [Hp _].
  cbv zeta in Hp. rewrite Hp, ticks_target.
  unfold integrator_step, homing, ltb.
  destruct (Rlt_dec _ _) as [_|Hn]; [reflexivity|].
  exfalso. apply Hn. exact Hg.
Qed.

Lemma homing_resumes_witness :
  well_formed 2 (geometry moving_system) /\ (0 < 2)%nat /\
  exists k, forall times, (k <= length times)%nat ->
    Rabs (0.94 * vx (particle (velocity (geometry (ticks CONFIG moving_system times))) 0)) < 0.1.
Proof.
  assert (W : well_formed 2 (geometry moving_system)) by (repeat split; reflexivity).
  assert (L : (0 < 2)%nat) by lia.
  split; [exact W|]. split; [exact L|].
  destruct (homing_resumes CONFIG moving_system 2 0 W L) as [k Hk].
  exists k. intros times Hlen. exact (proj1 (Hk times 0 Hlen)).
Defined.

(** ** The heart curve, continued *)

Lemma cos_turn (t : R) : cos (t + 2 * PI) = cos t.
Proof. rewrite cos_plus, cos_2PI, sin_2PI. ring. Qed.

Lemma sin_turn (t : R) : sin (t + 2 * PI) = sin t.
Proof. rewrite sin_plus, cos_2PI, sin_2PI. ring. Qed.

(** The curve is symmetric about the y axis and closes after one turn:
    the point at [-t] mirrors the point at [t], and the point at
    [t + 2 PI] is the point at [t], so a parameter in [0, 2 PI) reaches all
    of it. *)
Theorem heart_symmetric_and_periodic (t : R) :
  px (getHeartPoint (- t)) = - px (getHeartPoint t) /\
  py (getHeartPoint (- t)) = py (getHeartPoint t) /\
  getHeartPoint (t + 2 * PI) = getHeartPoint t.
Proof.
  split; [|split].
  - unfold getHeartPoint, Math_pow. cbn [px]. rewrite sin_neg. ring.
  - rewrite !heart_y_poly, cos_neg. reflexivity.
  - assert (Hy : py (getHeartPoint (t + 2 * PI)) = py (getHeartPoint t))
      by (rewrite !heart_y_poly, cos_turn; reflexivity).
    assert (Hx : px (getHeartPoint (t + 2 * PI)) = px (getHeartPoint t))
      by (unfold getHeartPoint, Math_pow; cbn [px]; rewrite sin_turn; reflexivity).
    destruct (getHeartPoint (t + 2 * PI)), (getHeartPoint t). cbn [px py] in *.
    congruence.
Qed.


(** ** Background stars *)

Lemma star_in_range (r : R) : 0 <= r < 1 -> -200 <= (r - 0.5) * 400 <= 200.
Proof. intros H. lra. Qed.

Lemma background_loop (n : nat) (g : Rng) :
  unit_draws (draws g) ->
  let r := for_loop backgroundBody 0 n [] g in
  length (fst r) = (n * 3)%nat /\
  Forall (fun x => -200 <= x <= 200) (fst r).
Proof.
  intros Hd.
  pose (Inv := fun (k : nat) (pos : list R) (g' : Rng) =>
    length pos = (k * 3)%nat /\ Forall (fun x => -200 <= x <= 200) pos /\
    draws g' = draws g).
  assert (H : Inv (0 + n)%nat (fst (for_loop backgroundBody 0 n [] g))
                              (snd (for_loop backgroundBody 0 n [] g))).
  { apply for_loop_inv.
    - intros j pos g' _ (Hl & Hf & Hg).
      unfold backgroundBody, bind, random, ret. unfold Inv. cbn [fst snd draws next].
      split; [rewrite length_app; cbn [length]; lia|].
      split; [|exact Hg].
      apply Forall_app. split; [exact Hf|].
      rewrite Hg. repeat (apply Forall_cons; [apply star_in_range; apply Hd|]).
      apply Forall_nil.
    - unfold Inv. cbn [length]. repeat split; auto. }
  destruct H as (Hl & Hf & _). auto.
Qed.

(** [createBackground] places 2000 stars: whatever state the random source
    is in when its loop starts, the list it builds has three entries for
    each star, 6000 in all, and every one is within [-200, 200]. *)
Theorem createBackground_stars (g : Rng) :
  unit_draws (draws g) ->
  length (fst (createBackground g)) = (2000 * 3)%nat /\
  Forall (fun x => -200 <= x <= 200) (fst (createBackground g)).
Proof.
  intros Hd. unfold createBackground. exact (background_loop 2000 g Hd).
Qed.

Lemma createBackground_stars_witness :
  unit_draws half_draws /\
  length (fst (createBackground {| draws := half_draws; next := 0 |})) = (2000 * 3)%nat.
Proof.
  split; [exact half_draws_unit|].
  exact (proj1 (createBackground_stars {| draws := half_draws; next := 0 |} half_draws_unit)).
Defined.

(** ** The scene from its creation *)

Lemma createSystems_well_formed cfg g :
  let w := fst (createSystems cfg g) in
  well_formed (N.to_nat (particleCount cfg)) (geometry (mainHeart w)) /\
  well_formed (N.to_nat (auraCount cfg)) (geometry (auraHeart w)).
Proof.
  cbv zeta. unfold createSystems, bind, ret.
  pose proof (created_well_formed cfg (N.to_nat (particleCount cfg)) 0.4 0.9 false g) as H1.
  destruct (createParticleSystem cfg (N.to_nat (particleCount cfg)) 0.4 0.9 false g)
    as [main g1]. cbn [fst] in H1.
  pose proof (created_well_formed cfg (N.to_nat (auraCount cfg)) 1.2 0.3 true g1) as H2.
  destruct (createParticleSystem cfg (N.to_nat (auraCount cfg)) 1.2 0.3 true g1)
    as [aur g2]. cbn [fst] in H2.
  cbn [fst mainHeart auraHeart]. auto.
Qed.

(** The scene that the program creates has [particleCount] main particles
    and [auraCount] aura particles, and has them still after any sequence
    of frames and pointer presses. *)
Theorem scene_keeps_its_particles (cfg : Config) (g g' : Rng) (ops : list Op) :
  let w := fst (createSystems cfg g) in
  let w' := fst (run cfg ops w g') in
  well_formed (N.to_nat (particleCount cfg)) (geometry (mainHeart w')) /\
  well_formed (N.to_nat (auraCount cfg)) (geometry (auraHeart w')).
Proof.
  cbv zeta. destruct (createSystems_well_formed cfg g) as [H1 H2].
  apply run_well_formed; auto.
Qed.

(** From its creation until the first pointer press a system homes.  Every
    particle of a freshly created system has, after any number of frames,
    still no velocity, so the next frame blends its position toward the
    breathing target of that frame by [formationSpeed]; for a formation
    speed in [0, 1] it is on x and on y no further from its target than
    where it was spawned. *)
Theorem fresh_system_homes (cfg : Config) (count : nat) (size opacity : R) (isAura : bool)
    (g : Rng) (i : nat) (times : list R) (time : R) :
  unit_draws (draws g) -> (i < count)%nat ->
  0 <= formationSpeed cfg <= 1 ->
  let s := fst (createParticleSystem cfg count size opacity isAura g) in
  let t := particle (target (geometry s)) i in
  let p := particle (position (geometry s)) i in
  let s1 := ticks cfg s times in
  let p1 := particle (position (geometry s1)) i in
  particle (velocity (geometry s1)) i = (0, 0, 0) /\
  particle (position (geometry (animateSystem cfg s1 time))) i =
    blend p1 (breathing_target time t) (formationSpeed cfg) /\
  Rabs (vx p1 - vx t) <= Rabs (vx p - vx t) /\
  Rabs (vy p1 - vy t) <= Rabs (vy p - vy t).
Proof.
  intros Hd Hi Hf. cbv zeta.
  destruct (createParticleSystem_spec cfg count size opacity isAura g Hd) as [Hwf H].
  cbv zeta in Hwf, H. destruct (H i Hi) as (Hv & _ & _).
  set (s := fst (createParticleSystem cfg count size opacity isAura g)) in *.
  destruct (rest_frames cfg times s count i Hwf Hi Hf Hv) as (Hv1 & Hx & Hy & _).
  cbv zeta in Hx, Hy.
  pose proof (ticks_well_formed cfg times s count Hwf) as Hwf1.
  destruct (rest_frame cfg (ticks cfg s times) time count i Hwf1 Hi Hv1) as [_ Hp].
  cbv zeta in Hp. rewrite ticks_target in Hp.
  set (q := 1 - formationSpeed cfg) in *.
  assert (Hqk : 0 <= q ^ length times <= 1).
  { split; [apply pow_le; unfold q; lra|].
    rewrite <- (pow1 (length times)). apply pow_incr. unfold q. lra. }
  set (qk := q ^ length times) in *.
  split; [exact Hv1|]. split; [exact Hp|]. rewrite Hx, Hy.
  split; apply shrunk_offset; exact Hqk.
Qed.

Lemma fresh_system_homes_witness :
  unit_draws half_draws /\ (0 < 1)%nat /\
  0 <= formationSpeed CONFIG <= 1 /\
  particle (velocity (geometry (ticks CONFIG
              (fst (createParticleSystem CONFIG 1 0.4 0.9 false
                      {| draws := half_draws; next := 0 |})) [0; 1]))) 0 = (0, 0, 0).
Proof.
  assert (L : (0 < 1)%nat) by lia.
  assert (F : 0 <= formationSpeed CONFIG <= 1) by (cbn; lra).
  split; [exact half_draws_unit|]. split; [exact L|]. split; [exact F|].
  exact (proj1 (fresh_system_homes CONFIG 1 0.4 0.9 false
                  {| draws := half_draws; next := 0 |} 0 [0; 1] 2 half_draws_unit L F)).
Defined.

Lemma vx_vadd (a b : Vec3) : vx (vadd a b) = vx a + vx b.
Proof. reflexivity. Qed.

Lemma vx_vscale (k : R) (a : Vec3) : vx (vscale k a) = k * vx a.
Proof. reflexivity. Qed.

Lemma vx_direction (p : Vec3) :
  vx (direction p) = vx p / explode_len (vx p) (vy p) (vz p).
Proof. reflexivity. Qed.

(** The gate looks at x alone.  A particle in the plane x = 0 with no x
    velocity is pushed by an impulse along y and z only, so the frame after
    the impulse still homes, however strong the impulse: the particle is
    moved by its new velocity and blended toward the breathing target. *)
Theorem impulse_in_the_yz_plane_still_homes (cfg : Config) (s : System) (g : Rng)
    (time : R) (n i : nat) :
  well_formed n (geometry s) -> (i < n)%nat ->
  vx (particle (position (geometry s)) i) = 0 ->
  vx (particle (velocity (geometry s)) i) = 0 ->
  let s1 := fst (explodeSystem cfg s g) in
  let v1 := particle (velocity (geometry s1)) i in
  let p := particle (position (geometry s)) i in
  let t := particle (target (geometry s)) i in
  vx v1 = 0 /\
  particle (position (geometry (animateSystem cfg s1 time))) i =
    blend (vadd p v1) (breathing_target time t) (formationSpeed cfg).
Proof.
  intros Hwf Hi Hpx Hvx. cbv zeta.
  pose proof (explodeSystem_frame cfg s g) as [Ht _].
  destruct (explodeSystem_spec cfg s g n Hwf) as (Hp & Hwf1 & _ & _ & _ & _ & Hv).
  cbv zeta in Hp, Hwf1, Hv.
  assert (Hv1 : vx (particle (velocity (geometry (fst (explodeSystem cfg s g)))) i) = 0).
  { rewrite (Hv i Hi), vx_vadd, vx_vscale, vx_direction, Hvx, Hpx.
    unfold Rdiv. ring. }
  split; [exact Hv1|].
  destruct (animateSystem_particle cfg (fst (explodeSystem cfg s g)) time n i Hwf1 Hi)
    as [Hp' _].
  cbv zeta in Hp'. rewrite Hp', Hp, Ht. unfold integrator_step, homing, ltb.
  destruct (Rlt_dec _ _) as [_|Hn]; [reflexivity|].
  exfalso. apply Hn. rewrite vx_vscale, Hv1.
  replace (0.94 * 0) with 0 by ring. rewrite Rabs_R0. lra.
Qed.

Lemma impulse_in_the_yz_plane_still_homes_witness :
  well_formed 4 (geometry compass_system) /\ (1 < 4)%nat /\
  vx (particle (position (geometry compass_system)) 1) = 0 /\
  vx (particle (velocity (geometry compass_system)) 1) = 0 /\
  vx (particle (velocity (geometry (fst (explodeSystem CONFIG compass_system
                                           {| draws := half_draws; next := 0 |})))) 1) = 0.
Proof.
  assert (W : well_formed 4 (geometry compass_system)) by (repeat split; reflexivity).
  assert (L : (1 < 4)%nat) by lia.
  assert (X : vx (particle (position (geometry compass_system)) 1) = 0) by reflexivity.
  assert (V : vx (particle (velocity (geometry compass_system)) 1) = 0) by reflexivity.
  split; [exact W|]. split; [exact L|]. split; [exact X|]. split; [exact V|].
  exact (proj1 (impulse_in_the_yz_plane_still_homes CONFIG compass_system
                  {| draws := half_draws; next := 0 |} 0 4 1 W L X V)).
Defined.
